(** * Ecowitt Direct weather server: the poll-normalise-publish pipeline

    A shallow embedding of [weather/contrib/ecowittdirect/server.py]:
    the field mapper ([getval], [app_temp], the three code tables), one
    cycle of the [fetchWeather] thread, and the [do_GET] request handler,
    followed by the properties of the specification that were checked
    against them.

    Conventions of the embedding.
    - Python values that come out of [response.json()] are [pyval]; the
      values the weather record can hold ([None], an [int] or a [float])
      are [option num].
    - A Python [float] is idealised as a real number: the rounding of the
      individual floating-point operations is not modelled, so "equal up to
      float rounding" reads as equality in [R].
    - A Python [str] is a Rocq [string], one [ascii] for each character:
      the embedding has the characters below U+0100 only, and [len] is
      [String.length].
    - A Python [dict] is an association list in insertion order.
    - A raised exception is a value [Raise e]; the mutations made before it
      stay in the state, as they do in Python. *)

From Stdlib Require Import ZArith List String Ascii Bool Reals Lra Lia.
From Stdlib Require Import DecimalString Decimal.
Import ListNotations.

Set Warnings "-register-all".

Local Open Scope list_scope.
Local Open Scope string_scope.

(** ** Values, exceptions *)

Inductive num : Type :=
| NInt (z : Z)
| NFloat (r : R).

Inductive pyval : Type :=
| PNone
| PBool (b : bool)
| PNum (n : num)
| PStr (s : string)
| PList (l : list pyval)
| PDict (d : list (string * pyval)).

Inductive exn : Type :=
| TypeError
| KeyError
| AttributeError
| ZeroDivisionError.

Inductive result (A : Type) : Type :=
| Ok (a : A)
| Raise (e : exn).

Arguments Ok {A} a.
Arguments Raise {A} e.

Definition raises {A : Type} (r : result A) : bool :=
  match r with Ok _ => false | Raise _ => true end.

(** ** A small monad class, for the two effect layers used below *)

Class Monad (M : Type -> Type) : Type := {
  ret : forall {A : Type}, A -> M A;
  bind : forall {A B : Type}, M A -> (A -> M B) -> M B
}.

Declare Scope py_scope.
Delimit Scope py_scope with py.
Notation "x <- m ;; k" := (bind m (fun x => k))
  (at level 61, m at next level, right associativity) : py_scope.
Notation "m ;;; k" := (bind m (fun _ => k))
  (at level 61, right associativity) : py_scope.
Local Open Scope py_scope.

#[export] Instance result_Monad : Monad result := {
  ret := fun A a => Ok a;
  bind := fun A B m k => match m with Ok a => k a | Raise e => Raise e end
}.

(** ** Dictionaries: association lists in insertion order *)

Definition dict (V : Type) : Type := list (string * V).

Fixpoint dict_get {V : Type} (k : string) (d : dict V) : option V :=
  match d with
  | [] => None
  | (k', v) :: d' => if String.eqb k k' then Some v else dict_get k d'
  end.

(** [d[k] = v]: overwrite in place when the key exists, append otherwise. *)
Fixpoint dict_set {V : Type} (k : string) (v : V) (d : dict V) : dict V :=
  match d with
  | [] => [(k, v)]
  | (k', v') :: d' =>
      if String.eqb k k' then (k, v) :: d' else (k', v') :: dict_set k v d'
  end.

Definition dict_mem {V : Type} (k : string) (d : dict V) : bool :=
  match dict_get k d with Some _ => true | None => false end.

Definition dict_keys {V : Type} (d : dict V) : list string := map fst d.

(** [d[k]] as an expression: [KeyError] when the key is absent. *)
Definition subscript {V : Type} (d : dict V) (k : string) : result V :=
  match dict_get k d with Some v => Ok v | None => Raise KeyError end.

(** ** Constants of the module *)

Definition BUILD : string := "0.0.1".

Definition OBSERVATION_MAP : dict string :=
  [ ("0x02", "temperature");
    ("0x07", "humidity");
    ("0x03", "dewpoint");
    ("0x04", "windchill");
    ("0x05", "heatindex");
    ("0x0A", "wind_deg");
    ("0x0B", "wind_speed");
    ("0x0C", "wind_gust");
    ("0x0E", "rain_1h");
    ("0x10", "rain_24h");
    ("0x15", "solar");
    ("0x16", "uvi");
    ("0x17", "uvi") ].

Definition WH25_MAP : dict string :=
  [ ("intemp", "inside_temp");
    ("inhumi", "inside_humidity");
    ("abs", "pressure") ].

Definition CO2_MAP : dict string :=
  [ ("PM25", "pm25");
    ("PM25_RealAQI", "pm25aqi");
    ("PM10", "pm10");
    ("PM10_RealAQI", "pm10aqi");
    ("CO2", "co2") ].

(** The weather record: every value is [None], an [int] or a [float]. *)
Definition record : Type := dict (option num).

(** The record [clearweather()] binds to the global [weather]. *)
Definition clearweather : record :=
  [ ("dt", Some (NInt 0));
    ("temperature", None); ("humidity", None); ("pressure", None);
    ("feels_like", None); ("app_temp", None);
    ("wind_speed", None); ("wind_deg", None); ("wind_gust", None);
    ("rain_1h", Some (NFloat 0)); ("rain_24h", Some (NFloat 0));
    ("solar", Some (NFloat 0)); ("uvi", Some (NInt 0));
    ("inside_temp", None); ("inside_humidity", None);
    ("pm25", None); ("pm25aqi", None); ("pm10", None); ("pm10aqi", None);
    ("co2", None) ].

(** ** [getval] *)

Definition is_digit (c : ascii) : bool :=
  let n := nat_of_ascii c in (48 <=? n)%nat && (n <=? 57)%nat.

Definition is_dot (c : ascii) : bool := Ascii.eqb c ".".

(** [re.sub(r'[^\d.]+', '', s)] on a string: every maximal run of
    characters that are neither a digit nor a dot is replaced by the empty
    string, which leaves exactly the digits and dots, in order.  Among the
    characters of the embedding, those below U+0100, [\d] matches the ten
    digits [0] to [9] and no other; the decimal digits of other scripts,
    which [\d] matches on a [str] as well, are not characters of the
    embedding. *)
Fixpoint strip_non_numeric (s : string) : string :=
  match s with
  | EmptyString => EmptyString
  | String c s' =>
      if is_digit c || is_dot c then String c (strip_non_numeric s')
      else strip_non_numeric s'
  end.

(** [re.sub] with a [str] pattern accepts only a [str] subject. *)
Definition re_sub (val : pyval) : result string :=
  match val with
  | PStr s => Ok (strip_non_numeric s)
  | _ => Raise TypeError
  end.

(** Rounding of a real to the nearest integer, ties to the even one. *)
Definition round_half_even (x : R) : Z :=
  let n := Int_part x in
  let f := frac_part x in
  if Rlt_dec f (1 / 2) then n
  else if Rlt_dec (1 / 2) f then (n + 1)%Z
  else if Z.even n then n else (n + 1)%Z.

(** The builtin [round(x, 1)]: it calls [x.__round__(1)], which [int],
    [bool] and [float] define and [str], [None], [list] and [dict] do
    not. *)
Definition py_round1 (x : pyval) : result num :=
  match x with
  | PNum (NInt z) => Ok (NInt z)
  | PBool b => Ok (NInt (if b then 1 else 0))
  | PNum (NFloat r) => Ok (NFloat (IZR (round_half_even (r * 10)) / 10))
  | PNone | PStr _ | PList _ | PDict _ => Raise TypeError
  end.

(** [def getval(val): return round(re.sub(r'[^\d.]+', '', val), 1)] *)
Definition getval (val : pyval) : result num :=
  s <- re_sub val ;;
  py_round1 (PStr s).

(** ** [app_temp] *)

(** [float(x)] for a value of the weather record. *)
Definition py_float (x : option num) : result R :=
  match x with
  | None => Raise TypeError
  | Some (NInt z) => Ok (IZR z)
  | Some (NFloat r) => Ok r
  end.

(** Truncation towards zero, as [int] does on a [float]. *)
Definition Rtrunc (r : R) : Z :=
  if Rle_dec 0 r then Int_part r else (- Int_part (- r))%Z.

Arguments Rtrunc : simpl never.

(** [int(x)] for a value of the weather record. *)
Definition py_int (x : option num) : result Z :=
  match x with
  | None => Raise TypeError
  | Some (NInt z) => Ok z
  | Some (NFloat r) => Ok (Rtrunc r)
  end.

(** Float division: a zero divisor raises. *)
Definition py_div (a b : R) : result R :=
  if Req_dec_T b 0 then Raise ZeroDivisionError else Ok (a / b)%R.

Definition app_temp (temp humidity wind : option num) : result num :=
  wind_float <- py_float wind ;;
  temp_float <- py_float temp ;;
  humi_int <- py_int humidity ;;
  let wind_ms := (wind_float / 3.6)%R in
  q <- py_div (17.27 * temp_float)%R (237.7 + temp_float)%R ;;
  let e := (IZR humi_int / 100 * 6.105 * exp q)%R in
  ret (NFloat (temp_float + (0.33 * e) - (0.70 * wind_ms) - 4.00)%R).

(** ** Operations on the raw payload *)

Definition str_eqb_val (s : string) (v : pyval) : bool :=
  match v with PStr t => String.eqb s t | _ => false end.

(** Is [sub] a substring of [s]?  (The [in] operator on two strings.) *)
Definition contains (sub s : string) : bool :=
  match String.index 0 sub s with Some _ => true | None => false end.

(** ["key" in container]: key membership on a dict, element membership on
    a list, substring on a string; the other types are not iterable. *)
Definition py_contains (key : string) (container : pyval) : result bool :=
  match container with
  | PDict d => Ok (dict_mem key d)
  | PList l => Ok (existsb (str_eqb_val key) l)
  | PStr s => Ok (contains key s)
  | PNone | PBool _ | PNum _ => Raise TypeError
  end.

(** [container["key"]] with a string subscript: only a dict accepts it. *)
Definition py_getitem (container : pyval) (key : string) : result pyval :=
  match container with
  | PDict d => subscript d key
  | _ => Raise TypeError
  end.

Fixpoint chars (s : string) : list pyval :=
  match s with
  | EmptyString => []
  | String c s' => PStr (String c EmptyString) :: chars s'
  end.

(** The items a [for] loop draws from a value. *)
Definition py_iter (v : pyval) : result (list pyval) :=
  match v with
  | PList l => Ok l
  | PDict d => Ok (map (fun kv => PStr (fst kv)) d)
  | PStr s => Ok (chars s)
  | PNone | PBool _ | PNum _ => Raise TypeError
  end.

(** [v.items()]: only a dict has the method. *)
Definition py_items (v : pyval) : result (list (string * pyval)) :=
  match v with
  | PDict d => Ok d
  | _ => Raise AttributeError
  end.

(** [v in table] for a table keyed by strings, together with the entry
    found: a list or dict is unhashable, a non-string is never a key. *)
Definition py_lookup (v : pyval) (table : dict string) : result (option string) :=
  match v with
  | PStr s => Ok (dict_get s table)
  | PList _ | PDict _ => Raise TypeError
  | PNone | PBool _ | PNum _ => Ok None
  end.

(** ** The mapping pass of [fetchWeather]

    The pass writes into the live global record, which a request served
    meanwhile can read.  A computation takes the record and returns the
    record it leaves, the contents the global [weather] has had on the
    way (one per assignment, oldest first), and its value or exception. *)

Definition M (A : Type) : Type := record -> record * list record * result A.

#[export] Instance M_Monad : Monad M := {
  ret := fun A a w => (w, [], Ok a);
  bind := fun A B m k w =>
    match m w with
    | (w1, l1, Ok a) =>
        match k a w1 with (w2, l2, r) => (w2, (l1 ++ l2)%list, r) end
    | (w1, l1, Raise e) => (w1, l1, Raise e)
    end
}.

Definition record_of {A : Type} (o : record * list record * result A) : record :=
  fst (fst o).
Definition snapshots {A : Type} (o : record * list record * result A)
  : list record := snd (fst o).
Definition outcome {A : Type} (o : record * list record * result A) : result A :=
  snd o.

Definition lift {A : Type} (r : result A) : M A := fun w => (w, [], r).

(** [weather[k] = v] *)
Definition assign (k : string) (v : option num) : M unit :=
  fun w => let w' := dict_set k v w in (w', [w'], Ok tt).

(** [weather[k]] *)
Definition read (k : string) : M (option num) :=
  fun w => (w, [], subscript w k).

Fixpoint for_each {A : Type} (body : A -> M unit) (l : list A) : M unit :=
  match l with
  | [] => ret tt
  | x :: l' => body x ;;; for_each body l'
  end.

(** [try: m  except: pass] *)
Definition try_except (m : M unit) : M unit :=
  fun w => (fst (m w), Ok tt).

(** The call [clearweather()]: the global is bound to a fresh record. *)
Definition call_clearweather : M unit :=
  fun _ => (clearweather, [clearweather], Ok tt).

Section Mapping.

(** The cleaning function applied to every recognised value.  The program
    uses [getval]; the pass is written over it so that what depends only
    on the control flow can be stated for any cleaning function. *)
Variable gv : pyval -> result num.

(** Body of the loops over [raw["common_list"]] and [raw["rain"]]. *)
Definition map_observation (observation : pyval) : M unit :=
  id <- lift (py_getitem observation "id") ;;
  field <- lift (py_lookup id OBSERVATION_MAP) ;;
  match field with
  | Some name =>
      val <- lift (py_getitem observation "val") ;;
      v <- lift (gv val) ;;
      assign name (Some v)
  | None => ret tt
  end.

(** Body of the inner loops over [wh25_values.items()] and
    [co2_values.items()]. *)
Definition map_item (table : dict string) (kv : string * pyval) : M unit :=
  match dict_get (fst kv) table with
  | Some name =>
      v <- lift (gv (snd kv)) ;;
      assign name (Some v)
  | None => ret tt
  end.

Definition map_items (table : dict string) (values : pyval) : M unit :=
  items <- lift (py_items values) ;;
  for_each (map_item table) items.

(** [if key in raw: for x in raw[key]: body(x)] *)
Definition category (key : string) (body : pyval -> M unit) (raw : pyval)
  : M unit :=
  present <- lift (py_contains key raw) ;;
  if (present : bool) then
    group <- lift (py_getitem raw key) ;;
    items <- lift (py_iter group) ;;
    for_each body items
  else ret tt.

(** [weather["app_temp"] = app_temp(weather["temperature"],
    weather["humidity"], weather["wind_speed"])] *)
Definition assign_app_temp : M unit :=
  t <- read "temperature" ;;
  h <- read "humidity" ;;
  w <- read "wind_speed" ;;
  a <- lift (app_temp t h w) ;;
  assign "app_temp" (Some a).

Definition common_list (raw : pyval) : M unit :=
  category "common_list" map_observation raw.
Definition rain (raw : pyval) : M unit :=
  category "rain" map_observation raw.
Definition wh25 (raw : pyval) : M unit :=
  category "wh25" (map_items WH25_MAP) raw.
Definition co2 (raw : pyval) : M unit :=
  category "co2" (map_items CO2_MAP) raw.

(** The body of the inner [try] (lines 238-257). *)
Definition mapping (lasttime : R) (raw : pyval) : M unit :=
  assign "dt" (Some (NInt (Rtrunc lasttime))) ;;;
  common_list raw ;;;
  rain raw ;;;
  wh25 raw ;;;
  co2 raw ;;;
  assign_app_temp.

(** [clearweather()] followed by the guarded pass (lines 236-260). *)
Definition clear_and_map (lasttime : R) (raw : pyval) : M unit :=
  call_clearweather ;;;
  try_except (mapping lasttime raw).

End Mapping.

(** ** Global state of the process *)

(** The dictionary [serverstats]; [cleared] is its entry ['clear'], and
    [mem] is set by the first [/stats] request. *)
Record stats : Type := {
  gets : Z;
  errors : Z;
  timeout : Z;
  uri : dict Z;
  ts : Z;
  start : Z;
  cleared : Z;
  influxdb : Z;
  influxdberrors : Z;
  mem : option Z
}.

Record globals : Type := {
  weather : record;
  raw : pyval;
  LOADED : bool;
  serverstats : stats
}.

Definition with_serverstats (g : globals) (s : stats) : globals :=
  {| weather := weather g; raw := raw g; LOADED := LOADED g;
     serverstats := s |}.

Definition count_error (s : stats) : stats :=
  {| gets := gets s; errors := errors s + 1; timeout := timeout s;
     uri := uri s; ts := ts s; start := start s; cleared := cleared s;
     influxdb := influxdb s; influxdberrors := influxdberrors s;
     mem := mem s |}.

(** [if path in uri: uri[path] += 1 else: uri[path] = 1] *)
Definition count_uri (path : string) (s : stats) : stats :=
  let n := match dict_get path (uri s) with Some n => (n + 1)%Z | None => 1%Z end in
  {| gets := gets s; errors := errors s; timeout := timeout s;
     uri := dict_set path n (uri s); ts := ts s; start := start s;
     cleared := cleared s; influxdb := influxdb s;
     influxdberrors := influxdberrors s; mem := mem s |}.

Definition count_get (s : stats) : stats :=
  {| gets := gets s + 1; errors := errors s; timeout := timeout s;
     uri := uri s; ts := ts s; start := start s; cleared := cleared s;
     influxdb := influxdb s; influxdberrors := influxdberrors s;
     mem := mem s |}.

Definition count_influx (ok bad : Z) (s : stats) : stats :=
  {| gets := gets s; errors := errors s; timeout := timeout s;
     uri := uri s; ts := ts s; start := start s; cleared := cleared s;
     influxdb := influxdb s + ok; influxdberrors := influxdberrors s + bad;
     mem := mem s |}.

Definition stamp_stats (now rss : Z) (s : stats) : stats :=
  {| gets := gets s; errors := errors s; timeout := timeout s;
     uri := uri s; ts := now; start := start s; cleared := cleared s;
     influxdb := influxdb s; influxdberrors := influxdberrors s;
     mem := Some rss |}.

(** State of the module once it is loaded; [t0], [t1] and [t2] are the
    three readings of the clock taken for the time stamps. *)
Definition initial (t0 t1 t2 : Z) : globals :=
  {| weather := clearweather;
     raw := PDict [];
     LOADED := false;
     serverstats :=
       {| gets := 0; errors := 0; timeout := 0; uri := [];
          ts := t0; start := t1; cleared := t2;
          influxdb := 0; influxdberrors := 0; mem := None |} |}.

(** ** One cycle of [fetchWeather] *)

(** The call the poller makes to [requests.get]: its positional URL and the
    [timeout] keyword, when one is passed. *)
Record http_get : Type := {
  get_url : string;
  get_timeout : option string
}.

(** What the call does: it raises, or it returns a response with a status
    code whose [json()] is a value or raises ([None]). *)
Inductive fetch_outcome : Type :=
| FetchRaised
| Response (status_code : Z) (json : option pyval).

(** What the InfluxDB block does: it raises before [write_points] returns,
    or [write_points] returns [ok] and [client.close()] raises or not. *)
Inductive sink_outcome : Type :=
| SinkRaised
| SinkWrote (ok : bool) (close_raised : bool).

Inductive effect : Type :=
| HttpGet (req : http_get)
| WritePoints (time : Z) (fields : record).

Record cycle : Type := {
  after : globals;
  observable : list record;
  effects : list effect
}.

(** The settings read from the configuration file that the poller and the
    handler refer to. *)
Record config : Type := {
  ECOIP : string;
  TIMEOUT : string;
  ECOWAIT : Z;
  INFLUX : bool
}.

Definition URL (conf : config) : string :=
  "http://" ++ ECOIP conf ++ "/get_livedata_info".

Section Poller.

Variable conf : config.
Variable gv : pyval -> result num.
Variable network : http_get -> fetch_outcome.
Variable influx : Z -> record -> sink_outcome.

(** [requests.get(URL)] *)
Definition fetch_request : http_get :=
  {| get_url := URL conf; get_timeout := None |}.

Definition write_influx (time : Z) (w : record) (s : stats) : stats :=
  match influx time w with
  | SinkRaised => count_influx 0 1 s
  | SinkWrote true false => count_influx 1 0 s
  | SinkWrote true true => count_influx 1 1 s
  | SinkWrote false false => count_influx 0 1 s
  | SinkWrote false true => count_influx 0 2 s
  end.

(** The body of [if currentts >= nextupdate:], lines 232-298. *)
Definition poll_cycle (currentts lasttime : R) (g : globals) : cycle :=
  let idle :=
    {| after := g; observable := [weather g];
       effects := [HttpGet fetch_request] |} in
  match network fetch_request with
  | FetchRaised => idle
  | Response code body =>
      if (code =? 200)%Z then
        match body with
        | None => idle
        | Some payload =>
            let pass := clear_and_map gv lasttime payload (weather g) in
            let w := record_of pass in
            {| after :=
                 {| weather := w;
                    raw := payload;
                    LOADED := true;
                    serverstats :=
                      if INFLUX conf
                      then write_influx (Rtrunc currentts) w
                                        (serverstats g)
                      else serverstats g |};
               observable := weather g :: snapshots pass;
               effects :=
                 HttpGet fetch_request ::
                 (if INFLUX conf then [WritePoints (Rtrunc currentts) w]
                  else []) |}
        end
      else idle
  end.

(** One turn of the [while running] loop: the time gate, then the cycle.
    The result carries the new [nextupdate]. *)
Definition fetchWeather_turn (nextupdate currentts lasttime : R) (g : globals)
  : R * cycle :=
  if Rle_dec nextupdate currentts
  then ((currentts + IZR (10 * ECOWAIT conf))%R, poll_cycle currentts lasttime g)
  else (nextupdate,
        {| after := g; observable := [weather g]; effects := [] |}).

End Poller.

(** ** The request handler [do_GET] *)

Inductive http_event : Type :=
| send_response (code : Z)
| send_header (keyword value : string)
| end_headers
| wfile_write (body : string).

Definition py_of_value (v : option num) : pyval :=
  match v with Some n => PNum n | None => PNone end.

Definition py_of_record (w : record) : pyval :=
  PDict (map (fun kv => (fst kv, py_of_value (snd kv))) w).

Definition py_of_int (z : Z) : pyval := PNum (NInt z).

Definition py_of_stats (s : stats) : pyval :=
  PDict
    ([ ("LocalWeather", PStr BUILD);
       ("gets", py_of_int (gets s));
       ("errors", py_of_int (errors s));
       ("timeout", py_of_int (timeout s));
       ("uri", PDict (map (fun kv => (fst kv, py_of_int (snd kv))) (uri s)));
       ("ts", py_of_int (ts s));
       ("start", py_of_int (start s));
       ("clear", py_of_int (cleared s));
       ("influxdb", py_of_int (influxdb s));
       ("influxdberrors", py_of_int (influxdberrors s)) ]
     ++ match mem s with
        | Some rss => [("mem", py_of_int rss)]
        | None => []
        end)%list.

(** [str(n)] for a length. *)
Definition str_of_nat (n : nat) : string :=
  NilZero.string_of_uint (Nat.to_uint n).

(** The double-quote character. *)
Definition dq : string := String (ascii_of_nat 34) EmptyString.

(** [path.split("/")[1]] on a path made of one slash and a name. *)
Definition field_of_path (path : string) : string :=
  match path with
  | EmptyString => EmptyString
  | String _ name => name
  end.

(** [result[k] = weather[k]] for each key in turn, on a fresh [result]. *)
Fixpoint collect (w : record) (keys : list (string * string))
  : result (dict pyval) :=
  match keys with
  | [] => Ok []
  | (out, k) :: keys' =>
      v <- subscript w k ;;
      rest <- collect w keys' ;;
      ret ((out, py_of_value v) :: rest)
  end.

Definition same (keys : list string) : list (string * string) :=
  map (fun k => (k, k)) keys.

Section Handler.

Variable conf : config.

(** Library functions the handler formats its payload with, and the two
    readings it takes from the host: [json.dumps], the [%s] rendering of a
    record value, [str(datetime.fromtimestamp(t))],
    [str(datetime.utcfromtimestamp(t))], [time.time()] and
    [resource.getrusage(RUSAGE_SELF).ru_maxrss]. *)
Variable json_dumps : pyval -> string.
Variable str_value : option num -> string.
Variable str_fromtimestamp : R -> string.
Variable str_utcfromtimestamp : R -> string.
Variable now : R.
Variable ru_maxrss : Z.

Definition nl : string := String (ascii_of_nat 10) EmptyString.

Definition table_row (kv : string * option num) : string :=
  "<tr><td align =" ++ dq ++ "right" ++ dq ++ ">" ++ fst kv
  ++ "</td><td align =" ++ dq ++ "right" ++ dq ++ ">" ++ str_value (snd kv)
  ++ "</td></tr>" ++ nl.

(** The page served on [/]. *)
Definition intro_page (g : globals) : result string :=
  let head :=
    "<html>" ++ nl ++ "<head><meta http-equiv=" ++ dq ++ "refresh" ++ dq
    ++ " content=" ++ dq ++ "5" ++ dq ++ " />" ++ nl
    ++ "<style>p, td, th { font-family: Helvetica, Arial, sans-serif; font-size: 10px;}</style>" ++ nl
    ++ "<style>h1 { font-family: Helvetica, Arial, sans-serif; font-size: 20px;}</style>" ++ nl
    ++ "</head>" ++ nl ++ "<body>" ++ nl ++ "<h1>LocalWeather Server v"
    ++ BUILD ++ "</h1>" ++ nl ++ nl in
  let body :=
    if LOADED g
    then "<table>" ++ nl ++ "<tr><th align =" ++ dq ++ "right" ++ dq
         ++ ">Current</th><th align =" ++ dq ++ "right" ++ dq
         ++ ">Value</th></tr>"
         ++ String.concat "" (map table_row (weather g))
         ++ "</table>" ++ nl
    else "<p>Error: No weather data available</p>" in
  dt <- subscript (weather g) "dt" ;;
  t <- py_int dt ;;
  ret (head ++ body
       ++ "<p>Last data update: " ++ str_fromtimestamp (IZR t)
       ++ "<br><font size=-2>From URL: " ++ URL conf ++ "</font></p>"
       ++ nl ++ "<p>Page refresh: " ++ str_fromtimestamp now ++ "</p>"
       ++ nl ++ "</body>" ++ nl ++ "</html>").

Definition json_of (keys : list (string * string)) (g : globals)
  : result string :=
  fields <- collect (weather g) keys ;;
  ret (json_dumps (PDict fields)).

Definition one_of (path : string) (paths : list string) : bool :=
  existsb (String.eqb path) paths.

(** The [if]/[elif] chain of [do_GET]: content type, payload and the
    statistics as the branch leaves them. *)
Definition route (path : string) (g : globals)
  : result (string * string * stats) :=
  let st := serverstats g in
  let json (m : result string) :=
    message <- m ;; ret ("application/json", message, st) in
  if path =? "/" then
    message <- intro_page g ;; ret ("text/html", message, st)
  else if path =? "/stats" then
    let st' := stamp_stats (Rtrunc now) ru_maxrss st in
    ret ("application/json", json_dumps (py_of_stats st'), st')
  else if (path =? "/json") || (path =? "/all") then
    json (ret (json_dumps (py_of_record (weather g))))
  else if path =? "/raw" then
    json (ret (json_dumps (raw g)))
  else if path =? "/time" then
    json (ret (json_dumps
                 (PDict [ ("local_time", PStr (str_fromtimestamp now));
                          ("ts", PNum (NFloat now));
                          ("utc", PStr (str_utcfromtimestamp now)) ])))
  else if path =? "/temp" then
    json (json_of (same ["temperature"]) g)
  else if one_of path ["/temperature"; "/humidity"; "/pressure";
                       "/feels_like"; "/app_temp"] then
    json (json_of (same [field_of_path path]) g)
  else if path =? "/wind" then
    json (json_of (same ["wind_speed"; "wind_deg"; "wind_gust"]) g)
  else if path =? "/solar" then
    json (json_of (same ["solar"]) g)
  else if path =? "/uvi" then
    json (json_of (same ["uvi"]) g)
  else if path =? "/indoor" then
    json (json_of (same ["inside_temp"; "inside_humidity"]) g)
  else if path =? "/aqi" then
    json (json_of (same ["pm25"; "pm25aqi"; "pm10"; "pm10aqi"; "co2"]) g)
  else if one_of path ["/rain"; "/precipitation"] then
    json (json_of (same ["rain_1h"; "rain_3h"; "snow_1h"; "snow_3h";
                         "rain_24h"]) g)
  else if (path =? "/conditions") || (path =? "/weather") then
    json (json_of [ ("conditions", "weather_main");
                    ("weather_description", "weather_description");
                    ("weather_icon", "weather_icon") ] g)
  else
    ret ("application/json", "Error: Unsupported Request", st).

(** The paths some branch of the chain answers. *)
Definition routes : list string :=
  [ "/"; "/stats"; "/json"; "/all"; "/raw"; "/time"; "/temp";
    "/temperature"; "/humidity"; "/pressure"; "/feels_like"; "/app_temp";
    "/wind"; "/solar"; "/uvi"; "/indoor"; "/aqi"; "/rain";
    "/precipitation"; "/conditions"; "/weather" ].

(** The counting block, lines 405-413. *)
Definition count (path message : string) (s : stats) : stats :=
  count_get (if contains "Error" message then count_error s
             else count_uri path s).

(** [do_GET]: the state it leaves, the calls made on the request handler
    in order, and whether it returned or raised. *)
Definition do_GET (path : string) (g : globals)
  : globals * list http_event * result unit :=
  match route path g with
  | Raise e => (g, [send_response 200], Raise e)
  | Ok (contenttype, message, st) =>
      (with_serverstats g (count path message st),
       [ send_response 200;
         send_header "Content-type" contenttype;
         send_header "Content-Length" (str_of_nat (String.length message));
         end_headers;
         wfile_write message ],
       Ok tt)
  end.

End Handler.

(** What reaches the client of the calls a handler makes.
    [BaseHTTPRequestHandler] appends the status line of [send_response] and
    each header of [send_header] to a buffer, and [end_headers()] is the
    call that writes the buffer to the socket; [wfile.write] writes at
    once.  What the buffer still holds when the handler returns or raises
    is never written. *)
Fixpoint flush (buffer events : list http_event) : list http_event :=
  match events with
  | [] => []
  | end_headers :: rest => (buffer ++ [end_headers]) ++ flush [] rest
  | wfile_write body :: rest => wfile_write body :: flush buffer rest
  | ev :: rest => flush (buffer ++ [ev]) rest
  end%list.

Definition transmitted (events : list http_event) : list http_event :=
  flush [] events.

(** ** Histories of the process *)

(** What happens to the process: a cycle of the poller, with what the
    station and the sink do and the two clock readings, or a request, with
    the clock and memory readings and the path. *)
Inductive event : Type :=
| Poll (network : http_get -> fetch_outcome)
       (influx : Z -> record -> sink_outcome) (currentts lasttime : R)
| Request (now : R) (ru_maxrss : Z) (path : string).

Section Histories.

Variable conf : config.
Variable gv : pyval -> result num.
Variable json_dumps : pyval -> string.
Variable str_value : option num -> string.
Variable str_fromtimestamp str_utcfromtimestamp : R -> string.

Definition step (g : globals) (ev : event) : globals :=
match ev with
| Poll network influx currentts lasttime =>
    after (poll_cycle conf gv network influx currentts lasttime g)
| Request now ru_maxrss path =>
    fst (fst (do_GET conf json_dumps str_value str_fromtimestamp
                     str_utcfromtimestamp now ru_maxrss path g))
end.

Definition run (history : list event) (g : globals) : globals :=
fold_left step history g.

End Histories.

(** * Vocabulary of the properties *)

(** ** Strings of digits and dots *)

Definition numeric (c : ascii) : bool := is_digit c || is_dot c.

Definition is_ascii (c : ascii) : bool := (nat_of_ascii c <? 128)%nat.

Fixpoint all_chars (p : ascii -> bool) (s : string) : bool :=
  match s with
  | EmptyString => true
  | String c s' => p c && all_chars p s'
  end.

(** ** The Steadman formula, as the specification words it *)

Definition vapor_pressure (T H : R) : R :=
  (H / 100 * 6.105 * exp (17.27 * T / (237.7 + T)))%R.

Definition steadman (T H W : R) : R :=
  (T + 0.33 * vapor_pressure T H - 0.70 * (W / 3.6) - 4.00)%R.

Definition float_of (n : num) : R :=
  match n with NInt z => IZR z | NFloat r => r end.

Definition int_of (n : num) : Z :=
  match n with NInt z => z | NFloat r => Rtrunc r end.

(** ** Sequences of assignments *)

Definition apply_writes (ws : list (string * option num)) (w : record) : record :=
  fold_left (fun acc kv => dict_set (fst kv) (snd kv) acc) ws w.

(** The successive records a sequence of assignments goes through. *)
Fixpoint scan (ws : list (string * option num)) (w : record) : list record :=
  match ws with
  | [] => []
  | kv :: ws' =>
      let w' := dict_set (fst kv) (snd kv) w in w' :: scan ws' w'
  end.

(** [writes_within fields m]: all [m] does to the record is a sequence of
    assignments to keys among [fields], each leaving one snapshot. *)
Definition writes_within {A : Type} (fields : list string) (m : M A) : Prop :=
  forall w, exists ws,
    Forall (fun kv => In (fst kv) fields) ws /\
    record_of (m w) = apply_writes ws w /\
    snapshots (m w) = scan ws w.

(** The canonical names the three code tables map to. *)
Definition targets : list string :=
  (map snd OBSERVATION_MAP ++ map snd WH25_MAP ++ map snd CO2_MAP)%list.

(** The keys a record of the process can have. *)
Definition possible_keys : list string :=
  (dict_keys clearweather ++ "dt" :: "app_temp" :: targets)%list.

Definition never_set (k : string) (g : globals) : Prop :=
  dict_get k (weather g) = None.

(** ** The pass as a sequence of steps *)

(** The four category blocks, in order. *)
Definition categories (gv : pyval -> result num) (raw : pyval) : list (M unit) :=
  [ common_list gv raw; rain gv raw; wh25 gv raw; co2 gv raw ].

Definition run_all (steps : list (M unit)) : M unit :=
  for_each (fun step => step) steps.

(** The record once [clearweather()] has run and the time stamp is set. *)
Definition started (lasttime : R) : record :=
  dict_set "dt" (Some (NInt (Rtrunc lasttime))) clearweather.

(** ** A failure of the cleaning function

    [cleaning_fails gv body x w w' l e]: while [body] processes the element
    [x] of a category from the record [w], the cleaning of a value carried
    by a recognised code raises [e]; [w'] and [l] are the record and the
    snapshots the assignments made for [x] before that value have left. *)
Inductive cleaning_fails (gv : pyval -> result num)
  : (pyval -> M unit) -> pyval -> record -> record -> list record -> exn
    -> Prop :=
| fails_in_reading (o : list (string * pyval)) (code name : string)
    (val : pyval) (w : record) (e : exn) :
    dict_get "id" o = Some (PStr code) ->
    dict_get code OBSERVATION_MAP = Some name ->
    dict_get "val" o = Some val ->
    gv val = Raise e ->
    cleaning_fails gv (map_observation gv) (PDict o) w w [] e
| fails_in_item (table : dict string) (earlier later : list (string * pyval))
    (k name : string) (v : pyval) (w w' : record) (l : list record) (e : exn) :
    dict_get k table = Some name ->
    gv v = Raise e ->
    for_each (map_item gv table) earlier w = (w', l, Ok tt) ->
    cleaning_fails gv (map_items gv table)
                   (PDict (earlier ++ (k, v) :: later)) w w' l e.

(** ** Sample inputs *)

Definition observation_of (code value : string) : pyval :=
  PDict [("id", PStr code); ("val", PStr value)].

(** A cleaning function that accepts everything, to tell the effect of the
    single handler apart from the behaviour of [getval]. *)
Definition accept_all (val : pyval) : result num := Ok (NInt 1).

Definition sample_conf : config :=
  {| ECOIP := "192.168.0.2"; TIMEOUT := "10"; ECOWAIT := 1; INFLUX := false |}.

(** A station that answers every request with an empty JSON object. *)
Definition empty_reply (req : http_get) : fetch_outcome :=
  Response 200 (Some (PDict [])).

Definition sink_up (time : Z) (fields : record) : sink_outcome :=
  SinkWrote true false.

(** The state a first cycle at time 100 leaves, and the cycle that follows
    it at time 200. *)
Definition after_first_cycle : globals :=
  after (poll_cycle sample_conf getval empty_reply sink_up 100 100 (initial 0 0 0)).

Definition second_cycle : cycle :=
  poll_cycle sample_conf getval empty_reply sink_up 200 200 after_first_cycle.

(** ** Effects and events *)

Definition is_fetch (ef : effect) : bool :=
  match ef with HttpGet _ => true | WritePoints _ _ => false end.

Definition is_status (ev : http_event) : bool :=
  match ev with send_response _ => true | _ => false end.

(** * The poller loop and the vocabulary of the further properties *)

(** ** The [while running] loop of [fetchWeather]

    One [turn] carries what a turn of the loop reads from outside: the two
    clock readings and what the station and the sink do.  The loop runs as
    long as [running] holds, here as long as there are turns; it returns the
    state it leaves, the [nextupdate] it has reached, and for each turn
    its reading [currentts] with what the turn did. *)
Record turn : Type := {
  turn_currentts : R;
  turn_lasttime : R;
  turn_network : http_get -> fetch_outcome;
  turn_influx : Z -> record -> sink_outcome
}.

Fixpoint fetchWeather (conf : config) (gv : pyval -> result num)
    (turns : list turn) (nextupdate : R) (g : globals)
  : globals * R * list (R * cycle) :=
  match turns with
  | [] => (g, nextupdate, [])
  | t :: turns' =>
      let r := fetchWeather_turn conf gv (turn_network t) (turn_influx t)
                                 nextupdate (turn_currentts t)
                                 (turn_lasttime t) g in
      let '(g', nextupdate', log) :=
        fetchWeather conf gv turns' (fst r) (after (snd r)) in
      (g', nextupdate', (turn_currentts t, snd r) :: log)
  end.

(** The clock readings of the turns in which the station was asked. *)
Definition poll_times (log : list (R * cycle)) : list R :=
  map fst (filter (fun tc => existsb is_fetch (effects (snd tc))) log).

(** A write to the sink. *)
Definition is_write (ef : effect) : bool := negb (is_fetch ef).

(** ** Counters *)

(** The sum of the per-path counters. *)
Definition uri_total (d : dict Z) : Z :=
  fold_right (fun kv acc => (snd kv + acc)%Z) 0%Z d.

(** No per-path count of [d] is missing from [d'] or larger than there. *)
Definition counts_le (d d' : dict Z) : Prop :=
  forall k n, dict_get k d = Some n ->
              exists n', dict_get k d' = Some n' /\ (n <= n')%Z.

(** ** Records *)

(** The record of the process has every key of [clearweather()], and its
    time stamp is a number. *)
Definition well_keyed (g : globals) : Prop :=
  Forall (fun k => dict_get k (weather g) <> None) (dict_keys clearweather) /\
  exists n, dict_get "dt" (weather g) = Some (Some n).

(** ** Paths *)

(** The paths whose branch reads only keys that [clearweather()] creates. *)
Definition answered : list string :=
  [ "/"; "/stats"; "/json"; "/all"; "/raw"; "/time"; "/temp";
    "/temperature"; "/humidity"; "/pressure"; "/feels_like"; "/app_temp";
    "/wind"; "/solar"; "/uvi"; "/indoor"; "/aqi" ].

(** The paths whose branch reads a key that the record never has. *)
Definition unanswered : list string :=
  [ "/rain"; "/precipitation"; "/conditions"; "/weather" ].

(** ** Payloads *)

(** A reading the loops over [common_list] and [rain] pass over: an object
    whose ["id"] is hashable and is not a key of [OBSERVATION_MAP]. *)
Definition unmapped_reading (x : pyval) : bool :=
  match x with
  | PDict o =>
      match dict_get "id" o with
      | Some id =>
          match py_lookup id OBSERVATION_MAP with
          | Ok None => true
          | _ => false
          end
      | None => false
      end
  | _ => false
  end.

(** A payload that is [null], a boolean or a number. *)
Definition is_scalar (v : pyval) : bool :=
  match v with
  | PNone | PBool _ | PNum _ => true
  | PStr _ | PList _ | PDict _ => false
  end.

(** The fetch did not deliver a JSON body with status 200. *)
Definition fetch_failed (o : fetch_outcome) : bool :=
  match o with
  | FetchRaised => true
  | Response code None => true
  | Response code (Some _) => negb (code =? 200)%Z
  end.

(** Ordered by at least [gap]: each element is at least [gap] after the
    one before it. *)
Fixpoint spaced (gap : R) (times : list R) : Prop :=
  match times with
  | [] => True
  | t1 :: rest =>
      match rest with
      | [] => True
      | t2 :: _ => (t1 + gap <= t2)%R
      end /\ spaced gap rest
  end.

(** The first element, when there is one, is not before [t0]. *)
Definition first_not_before (t0 : R) (times : list R) : Prop :=
  match times with [] => True | t :: _ => (t0 <= t)%R end.

(** ** Further sample inputs *)

Definition sample_history : list event :=
  [ Request 50 1000 "/";
    Poll empty_reply sink_up 100 100;
    Request 120 1000 "/json";
    Request 121 1000 "/nonexistent";
    Request 122 1000 "/rain";
    Poll (fun _ => FetchRaised) sink_up 200 200;
    Request 210 1000 "/wind" ].

Definition plain (v : pyval) : string := "{}".
Definition blank {A : Type} (x : A) : string := "".

(** * Properties *)

(** ** Arithmetic helpers *)

Lemma Rtrunc_IZR (z : Z) : Rtrunc (IZR z) = z.
Proof.
  unfold Rtrunc.
  destruct (Rle_dec 0 (IZR z)) as [_ | _].
  - symmetry. apply Int_part_spec. lra.
  - rewrite <- opp_IZR.
    replace (Int_part (IZR (- z))) with (- z)%Z; [lia |].
    apply Int_part_spec. lra.
Qed.

Lemma Rtrunc_between (r : R) (z : Z) :
  (0 <= IZR z <= r)%R -> (r < IZR z + 1)%R -> Rtrunc r = z.
Proof.
  intros [Hz Hr] Hlt. unfold Rtrunc.
  destruct (Rle_dec 0 r) as [_ | Hn]; [| lra].
  symmetry. apply Int_part_spec. lra.
Qed.

Lemma py_div_nonzero (a b : R) : b <> 0%R -> py_div a b = Ok (a / b)%R.
Proof.
  intros Hb. unfold py_div. destruct (Req_dec_T b 0); [contradiction | reflexivity].
Qed.

(** ** [getval] *)

(** Whatever it is given, [getval] raises [TypeError]: a non-string is
    refused by [re.sub], and the stripped string is refused by [round]. *)
Lemma getval_raises (val : pyval) : getval val = Raise TypeError.
Proof. destruct val; reflexivity. Qed.

Lemma strip_non_numeric_numeric (s : string) :
  all_chars numeric (strip_non_numeric s) = true.
Proof.
  induction s as [| c s IH]; simpl; [reflexivity |].
  destruct (is_digit c || is_dot c) eqn:E; simpl; [| exact IH].
  unfold numeric at 1. rewrite E. exact IH.
Qed.

(** The stripped string is the string of the digits and dots of the
    subject, in their order: nothing else is kept, nothing of them is
    dropped. *)
Lemma strip_non_numeric_filter (s : string) :
  strip_non_numeric s
  = string_of_list_ascii (filter numeric (list_ascii_of_string s)).
Proof.
  induction s as [| c s IH]; simpl; [reflexivity |].
  unfold numeric at 1. destruct (is_digit c || is_dot c); simpl;
    rewrite IH; reflexivity.
Qed.

Lemma strip_non_numeric_fixed (s : string) :
  all_chars numeric s = true -> strip_non_numeric s = s.
Proof.
  induction s as [| c s IH]; simpl; [reflexivity |].
  intros H. apply andb_true_iff in H as [Hc Hs].
  unfold numeric in Hc. rewrite Hc, (IH Hs). reflexivity.
Qed.

(** ** [app_temp] *)

Lemma app_temp_numeric (T H W : num) :
  (- 237.7 < float_of T)%R ->
  app_temp (Some T) (Some H) (Some W)
  = Ok (NFloat (steadman (float_of T) (IZR (int_of H)) (float_of W))).
Proof.
  intros HT. unfold app_temp.
  assert (EW : py_float (Some W) = Ok (float_of W)) by (destruct W; reflexivity).
  assert (ET : py_float (Some T) = Ok (float_of T)) by (destruct T; reflexivity).
  assert (EH : py_int (Some H) = Ok (int_of H)) by (destruct H; reflexivity).
  rewrite EW, ET, EH. simpl.
  rewrite py_div_nonzero by lra.
  unfold steadman, vapor_pressure. reflexivity.
Qed.

(** A [None] among the three arguments makes [app_temp] raise. *)
Lemma app_temp_None (temp humidity wind : option num) :
  temp = None \/ humidity = None \/ wind = None ->
  app_temp temp humidity wind = Raise TypeError.
Proof.
  intros H. unfold app_temp.
  destruct wind as [[w | w] |]; simpl; try reflexivity;
    destruct temp as [[t | t] |]; simpl; try reflexivity;
    destruct humidity as [[h | h] |]; simpl; try reflexivity;
    destruct H as [H | [H | H]]; discriminate.
Qed.

Lemma app_temp_Ok (temp humidity wind : option num) (a : num) :
  app_temp temp humidity wind = Ok a ->
  temp <> None /\ humidity <> None /\ wind <> None.
Proof.
  intros H.
  destruct temp, humidity, wind; try (repeat split; discriminate);
    rewrite app_temp_None in H by auto; discriminate.
Qed.

(** ** Dictionaries *)

Lemma dict_get_set_eq {V : Type} (k : string) (v : V) (d : dict V) :
  dict_get k (dict_set k v d) = Some v.
Proof.
  induction d as [| [k' v'] d IH]; simpl.
  - rewrite String.eqb_refl. reflexivity.
  - destruct (k =? k') eqn:E; simpl; rewrite ?String.eqb_refl, ?E; auto.
Qed.

Lemma dict_get_set_neq {V : Type} (k k' : string) (v : V) (d : dict V) :
  k <> k' -> dict_get k (dict_set k' v d) = dict_get k d.
Proof.
  intros Hne. apply String.eqb_neq in Hne.
  induction d as [| [k0 v0] d IH]; simpl.
  - rewrite Hne. reflexivity.
  - destruct (k' =? k0) eqn:E; simpl.
    + apply String.eqb_eq in E. subst k0. rewrite Hne. reflexivity.
    + destruct (k =? k0); auto.
Qed.

Lemma dict_get_In {V : Type} (k : string) (v : V) (d : dict V) :
  dict_get k d = Some v -> In v (map snd d).
Proof.
  induction d as [| [k' v'] d IH]; simpl; [discriminate |].
  destruct (k =? k'); intros H.
  - left. congruence.
  - right. auto.
Qed.

(** ** The mapping monad *)

Lemma bind_unfold {A B : Type} (m : M A) (k : A -> M B) (w : record) :
  bind m k w =
  match m w with
  | (w1, l1, Ok a) =>
      match k a w1 with (w2, l2, r) => (w2, (l1 ++ l2)%list, r) end
  | (w1, l1, Raise e) => (w1, l1, Raise e)
  end.
Proof. reflexivity. Qed.

Lemma bind_Raise {A B : Type} (m : M A) (k : A -> M B) w w1 l1 e :
  m w = (w1, l1, Raise e) -> bind m k w = (w1, l1, Raise e).
Proof. intros H. rewrite bind_unfold, H. reflexivity. Qed.

Lemma bind_lift_Ok {A B : Type} (a : A) (k : A -> M B) (w : record) :
  bind (lift (Ok a)) k w = k a w.
Proof.
  rewrite bind_unfold. unfold lift. destruct (k a w) as [[w2 l2] r]. reflexivity.
Qed.

Lemma bind_lift_Raise {A B : Type} (e : exn) (k : A -> M B) (w : record) :
  bind (lift (Raise e)) k w = (w, [], Raise e).
Proof. reflexivity. Qed.

Lemma bind_assoc {A B C : Type} (m : M A) (f : A -> M B) (g : B -> M C) w :
  bind (bind m f) g w = bind m (fun x => bind (f x) g) w.
Proof.
  rewrite !bind_unfold.
  destruct (m w) as [[w1 l1] [a | e]]; [| reflexivity].
  rewrite bind_unfold.
  destruct (f a w1) as [[w2 l2] [b | e]]; [| reflexivity].
  destruct (g b w2) as [[w3 l3] r]. rewrite app_assoc. reflexivity.
Qed.

Lemma bind_ext {A B : Type} (m : M A) (k k' : A -> M B) w :
  (forall a w', k a w' = k' a w') -> bind m k w = bind m k' w.
Proof.
  intros H. rewrite !bind_unfold.
  destruct (m w) as [[w1 l1] [a | e]]; [| reflexivity].
  rewrite H. reflexivity.
Qed.

Lemma ret_bind {A B : Type} (a : A) (k : A -> M B) w : bind (ret a) k w = k a w.
Proof.
  rewrite bind_unfold. simpl. destruct (k a w) as [[w2 l2] r]. reflexivity.
Qed.

(** A loop stops at the first item whose body raises. *)
Lemma for_each_app {A : Type} (body : A -> M unit) (l1 l2 : list A) (w : record) :
  for_each body (l1 ++ l2)%list w =
  match for_each body l1 w with
  | (w1, s1, Ok _) =>
      match for_each body l2 w1 with (w2, s2, r) => (w2, (s1 ++ s2)%list, r) end
  | (w1, s1, Raise e) => (w1, s1, Raise e)
  end.
Proof.
  revert w. induction l1 as [| x l1 IH]; intros w; simpl.
  - destruct (for_each body l2 w) as [[w2 s2] r]. reflexivity.
  - destruct (body x w) as [[wx sx] [[] | e]]; [| reflexivity].
    rewrite IH.
    destruct (for_each body l1 wx) as [[w1 s1] [[] | e]]; [| reflexivity].
    destruct (for_each body l2 w1) as [[w2 s2] r].
    rewrite app_assoc. reflexivity.
Qed.

Lemma for_each_raise {A : Type} (body : A -> M unit) (before after : list A)
      (x : A) (w w1 w2 : record) (s1 s2 : list record) (e : exn) :
  for_each body before w = (w1, s1, Ok tt) ->
  body x w1 = (w2, s2, Raise e) ->
  for_each body (before ++ x :: after)%list w = (w2, (s1 ++ s2)%list, Raise e).
Proof.
  intros Hb Hx. rewrite for_each_app, Hb. simpl. rewrite Hx. reflexivity.
Qed.

(** ** What a computation writes *)

Lemma apply_writes_app ws1 ws2 w :
  apply_writes (ws1 ++ ws2)%list w = apply_writes ws2 (apply_writes ws1 w).
Proof. apply fold_left_app. Qed.

Lemma scan_app ws1 ws2 w :
  scan (ws1 ++ ws2)%list w = (scan ws1 w ++ scan ws2 (apply_writes ws1 w))%list.
Proof.
  revert w. induction ws1 as [| kv ws1 IH]; intros w; simpl; [reflexivity |].
  rewrite IH. reflexivity.
Qed.

Lemma scan_prefix ws w x :
  In x (scan ws w) -> exists n, x = apply_writes (firstn n ws) w.
Proof.
  revert w. induction ws as [| kv ws IH]; intros w; simpl; [contradiction |].
  intros [<- | Hin].
  - exists 1%nat. reflexivity.
  - destruct (IH _ Hin) as [n ->]. exists (S n). reflexivity.
Qed.

Lemma apply_writes_untouched (k : string) ws w :
  ~ In k (map fst ws) -> dict_get k (apply_writes ws w) = dict_get k w.
Proof.
  revert w. induction ws as [| [k' v'] ws IH]; intros w Hn; simpl; [reflexivity |].
  simpl in Hn. rewrite IH by tauto.
  apply dict_get_set_neq. intros ->. tauto.
Qed.

Lemma writes_ret {A : Type} fields (a : A) : writes_within fields (ret a).
Proof. intros w. exists []. repeat split. constructor. Qed.

Lemma writes_lift {A : Type} fields (r : result A) : writes_within fields (lift r).
Proof. intros w. exists []. repeat split. constructor. Qed.

Lemma writes_read fields k : writes_within fields (read k).
Proof. intros w. exists []. repeat split. constructor. Qed.

Lemma writes_assign fields k v : In k fields -> writes_within fields (assign k v).
Proof.
  intros Hk w. exists [(k, v)]. repeat split. constructor; [exact Hk | constructor].
Qed.

Lemma writes_bind {A B : Type} fields (m : M A) (k : A -> M B) :
  writes_within fields m -> (forall a, writes_within fields (k a)) ->
  writes_within fields (bind m k).
Proof.
  intros Hm Hk w. destruct (Hm w) as (ws1 & F1 & R1 & S1).
  rewrite bind_unfold.
  destruct (m w) as [[w1 l1] [a | e]]; unfold record_of, snapshots in *; simpl in *.
  - destruct (Hk a w1) as (ws2 & F2 & R2 & S2).
    destruct (k a w1) as [[w2 l2] r]; unfold record_of, snapshots in *; simpl in *.
    exists (ws1 ++ ws2)%list. subst.
    rewrite apply_writes_app, scan_app. repeat split.
    apply Forall_app. split; assumption.
  - exists ws1. repeat split; assumption.
Qed.

Lemma writes_for_each {A : Type} fields (body : A -> M unit) (l : list A) :
  (forall x, writes_within fields (body x)) ->
  writes_within fields (for_each body l).
Proof.
  intros Hb. induction l as [| x l IH]; simpl.
  - apply writes_ret.
  - apply writes_bind; [apply Hb | intros _; exact IH].
Qed.

Lemma writes_try_except fields (m : M unit) :
  writes_within fields m -> writes_within fields (try_except m).
Proof.
  intros Hm w. destruct (Hm w) as (ws & F & R & S).
  exists ws. unfold try_except, record_of, snapshots in *. simpl. auto.
Qed.

Lemma writes_incl {A : Type} fields fields' (m : M A) :
  incl fields fields' -> writes_within fields m -> writes_within fields' m.
Proof.
  intros Hi Hm w. destruct (Hm w) as (ws & F & R & S).
  exists ws. repeat split; try assumption.
  eapply Forall_impl; [| exact F]. intros kv. apply Hi.
Qed.

Lemma writes_bind_lift {A B : Type} fields (r : result A) (k : A -> M B) :
  (forall a, r = Ok a -> writes_within fields (k a)) ->
  writes_within fields (bind (lift r) k).
Proof.
  intros Hk w. destruct r as [a | e].
  - rewrite bind_lift_Ok. apply Hk. reflexivity.
  - exists []. repeat split. constructor.
Qed.

Create HintDb writes.
#[local] Hint Resolve writes_ret writes_lift writes_read writes_assign
  writes_bind writes_for_each writes_try_except : writes.

(** ** What the mapping pass writes *)

Section MappingWrites.

Variable gv : pyval -> result num.

Lemma writes_map_observation fields observation :
  incl (map snd OBSERVATION_MAP) fields ->
  writes_within fields (map_observation gv observation).
Proof.
  intros Hi. unfold map_observation.
  apply writes_bind; [apply writes_lift | intros id].
  apply writes_bind_lift. intros [name |] E; [| apply writes_ret].
  apply writes_bind; [apply writes_lift | intros val].
  apply writes_bind; [apply writes_lift | intros v].
  apply writes_assign, Hi.
  destruct id; simpl in E; try discriminate.
  injection E as E'. eapply dict_get_In; exact E'.
Qed.

Lemma writes_map_items fields table values :
  incl (map snd table) fields ->
  writes_within fields (map_items gv table values).
Proof.
  intros Hi. unfold map_items.
  apply writes_bind; [apply writes_lift | intros items].
  apply writes_for_each. intros [k v]. unfold map_item. cbn [fst snd].
  destruct (dict_get k table) as [name |] eqn:E.
  - apply writes_bind; [apply writes_lift | intros x].
    apply writes_assign, Hi. eapply dict_get_In; eassumption.
  - apply writes_ret.
Qed.

Lemma writes_category fields key body raw :
  (forall x, writes_within fields (body x)) ->
  writes_within fields (category key body raw).
Proof.
  intros Hb. unfold category.
  apply writes_bind; [apply writes_lift | intros [|]].
  - apply writes_bind; [apply writes_lift | intros group].
    apply writes_bind; [apply writes_lift | intros items].
    apply writes_for_each, Hb.
  - apply writes_ret.
Qed.

Lemma incl_targets_1 : incl (map snd OBSERVATION_MAP) targets.
Proof. unfold targets. apply incl_appl, incl_refl. Qed.
Lemma incl_targets_2 : incl (map snd WH25_MAP) targets.
Proof. unfold targets. apply incl_appr, incl_appl, incl_refl. Qed.
Lemma incl_targets_3 : incl (map snd CO2_MAP) targets.
Proof. unfold targets. apply incl_appr, incl_appr, incl_refl. Qed.

Lemma writes_common_list raw : writes_within targets (common_list gv raw).
Proof.
  apply writes_category. intros x.
  apply writes_map_observation, incl_targets_1.
Qed.

Lemma writes_rain raw : writes_within targets (rain gv raw).
Proof.
  apply writes_category. intros x.
  apply writes_map_observation, incl_targets_1.
Qed.

Lemma writes_wh25 raw : writes_within targets (wh25 gv raw).
Proof.
  apply writes_category. intros x. apply writes_map_items, incl_targets_2.
Qed.

Lemma writes_co2 raw : writes_within targets (co2 gv raw).
Proof.
  apply writes_category. intros x. apply writes_map_items, incl_targets_3.
Qed.

Lemma writes_assign_app_temp : writes_within ["app_temp"] assign_app_temp.
Proof.
  unfold assign_app_temp.
  repeat (apply writes_bind; [first [apply writes_read | apply writes_lift] | intro]).
  apply writes_assign. left. reflexivity.
Qed.

Lemma writes_run_all fields (steps : list (M unit)) :
  Forall (writes_within fields) steps -> writes_within fields (run_all steps).
Proof.
  unfold run_all. induction 1 as [| step steps Hs _ IH]; simpl.
  - apply writes_ret.
  - apply writes_bind; [exact Hs | intros _; exact IH].
Qed.

Lemma writes_categories raw : writes_within targets (run_all (categories gv raw)).
Proof.
  apply writes_run_all. unfold categories.
  repeat constructor;
    [apply writes_common_list | apply writes_rain | apply writes_wh25
    | apply writes_co2].
Qed.

(** The pass, as the time stamp, the category blocks and the derived
    field in sequence. *)
Lemma run_all_then (steps : list (M unit)) (k : M unit) (w : record) :
  (run_all steps ;;; k) w =
  fold_right (fun step rest => step ;;; rest) k steps w.
Proof.
  revert w. induction steps as [| step steps IH]; intros w.
  - exact (ret_bind tt (fun _ => k) w).
  - change (run_all (step :: steps)) with (step ;;; run_all steps).
    change (fold_right (fun s rest : M unit => s ;;; rest) k (step :: steps))
      with (step ;;; fold_right (fun s rest : M unit => s ;;; rest) k steps).
    rewrite bind_assoc. apply bind_ext. intros _ w'. apply IH.
Qed.

Lemma mapping_steps lasttime raw w :
  mapping gv lasttime raw w =
  (assign "dt" (Some (NInt (Rtrunc lasttime))) ;;;
   run_all (categories gv raw) ;;;
   assign_app_temp) w.
Proof.
  unfold mapping. apply bind_ext. intros _ w'.
  symmetry. exact (run_all_then (categories gv raw) assign_app_temp w').
Qed.

Lemma writes_mapping lasttime raw :
  writes_within ("dt" :: "app_temp" :: targets) (mapping gv lasttime raw).
Proof.
  unfold mapping.
  apply writes_bind; [apply writes_assign; left; reflexivity | intros _].
  apply writes_bind;
    [eapply writes_incl; [| apply writes_common_list];
     apply incl_tl, incl_tl, incl_refl | intros _].
  apply writes_bind;
    [eapply writes_incl; [| apply writes_rain];
     apply incl_tl, incl_tl, incl_refl | intros _].
  apply writes_bind;
    [eapply writes_incl; [| apply writes_wh25];
     apply incl_tl, incl_tl, incl_refl | intros _].
  apply writes_bind;
    [eapply writes_incl; [| apply writes_co2];
     apply incl_tl, incl_tl, incl_refl | intros _].
  eapply writes_incl; [| apply writes_assign_app_temp].
  intros k [<- | []]. right. left. reflexivity.
Qed.

End MappingWrites.

(** ** The guarded pass *)

(** The pass does not look at the record it replaces, and no exception
    leaves it. *)
Lemma clear_and_map_unfold gv lasttime raw (w0 : record) :
  clear_and_map gv lasttime raw w0 =
  (record_of (mapping gv lasttime raw clearweather),
   clearweather :: snapshots (mapping gv lasttime raw clearweather),
   Ok tt).
Proof.
  unfold clear_and_map. rewrite bind_unfold.
  unfold call_clearweather, try_except, record_of, snapshots.
  destruct (mapping gv lasttime raw clearweather) as [[w1 l1] r]. reflexivity.
Qed.

Lemma mapping_from_started gv lasttime raw :
  mapping gv lasttime raw clearweather =
  match (run_all (categories gv raw) ;;; assign_app_temp) (started lasttime) with
  | (w, l, r) => (w, started lasttime :: l, r)
  end.
Proof.
  rewrite mapping_steps, bind_unfold. unfold assign at 1. fold (started lasttime).
  destruct ((run_all (categories gv raw) ;;; assign_app_temp) (started lasttime))
    as [[w l] r].
  reflexivity.
Qed.

Lemma category_raise key body raw group before x after w w1 l1 w2 l2 e :
  py_contains key raw = Ok true ->
  py_getitem raw key = Ok group ->
  py_iter group = Ok (before ++ x :: after)%list ->
  for_each body before w = (w1, l1, Ok tt) ->
  body x w1 = (w2, l2, Raise e) ->
  category key body raw w = (w2, (l1 ++ l2)%list, Raise e).
Proof.
  intros Hc Hg Hi Hb Hx. unfold category.
  rewrite Hc, bind_lift_Ok, Hg, bind_lift_Ok, Hi, bind_lift_Ok.
  eapply for_each_raise; eassumption.
Qed.

Lemma pass_raise gv lasttime raw w0 pre step post w1 l1 w2 l2 e :
  categories gv raw = (pre ++ step :: post)%list ->
  run_all pre (started lasttime) = (w1, l1, Ok tt) ->
  step w1 = (w2, l2, Raise e) ->
  clear_and_map gv lasttime raw w0
  = (w2, clearweather :: started lasttime :: (l1 ++ l2)%list, Ok tt).
Proof.
  intros Hsplit Hpre Hstep.
  rewrite clear_and_map_unfold, mapping_from_started.
  assert (H : run_all (categories gv raw) (started lasttime)
              = (w2, (l1 ++ l2)%list, Raise e)).
  { rewrite Hsplit. unfold run_all in *.
    eapply for_each_raise; eassumption. }
  rewrite (bind_Raise _ _ _ _ _ _ H). reflexivity.
Qed.

(** ** The poll cycle *)

Lemma poll_cycle_loaded conf gv network influx currentts lasttime g payload :
  network (fetch_request conf) = Response 200 (Some payload) ->
  poll_cycle conf gv network influx currentts lasttime g =
  let w := record_of (mapping gv lasttime payload clearweather) in
  {| after :=
       {| weather := w; raw := payload; LOADED := true;
          serverstats :=
            if INFLUX conf
            then write_influx influx (Rtrunc currentts) w (serverstats g)
            else serverstats g |};
     observable :=
       weather g :: clearweather
       :: snapshots (mapping gv lasttime payload clearweather);
     effects :=
       HttpGet (fetch_request conf)
       :: (if INFLUX conf then [WritePoints (Rtrunc currentts) w] else []) |}.
Proof.
  intros Hnet. unfold poll_cycle. rewrite Hnet. simpl Z.eqb. cbv iota.
  rewrite clear_and_map_unfold. reflexivity.
Qed.

Lemma poll_cycle_idle conf gv network influx currentts lasttime g :
  (forall payload, network (fetch_request conf) <> Response 200 (Some payload)) ->
  poll_cycle conf gv network influx currentts lasttime g =
  {| after := g; observable := [weather g];
     effects := [HttpGet (fetch_request conf)] |}.
Proof.
  intros Hnet. unfold poll_cycle.
  destruct (network (fetch_request conf)) as [| code [payload |]];
    try reflexivity.
  - destruct (code =? 200)%Z eqn:E; [| reflexivity].
    apply Z.eqb_eq in E. subst code. elim (Hnet payload). reflexivity.
  - destruct (code =? 200)%Z; reflexivity.
Qed.

Lemma fetch_cases (o : fetch_outcome) :
  (exists payload, o = Response 200 (Some payload)) \/
  (forall payload, o <> Response 200 (Some payload)).
Proof.
  destruct o as [| code [payload |]].
  - right. discriminate.
  - destruct (Z.eq_dec code 200) as [-> | Hne].
    + left. exists payload. reflexivity.
    + right. intros p H. injection H as H _. contradiction.
  - right. discriminate.
Qed.

Lemma fetch_failed_false (o : fetch_outcome) :
  fetch_failed o = false -> exists payload, o = Response 200 (Some payload).
Proof.
  destruct o as [| code [payload |]]; simpl; try discriminate.
  intros H. apply negb_false_iff, Z.eqb_eq in H. subst code.
  exists payload. reflexivity.
Qed.

Lemma fetch_failed_true (o : fetch_outcome) :
  fetch_failed o = true -> forall payload, o <> Response 200 (Some payload).
Proof.
  intros H payload E. subst o. discriminate H.
Qed.

Lemma not_written_by_fields :
  ~ In "dt" ("app_temp" :: targets).
Proof.
  intros H. simpl in H.
  repeat (destruct H as [H | H]; [discriminate H |]). exact H.
Qed.

Lemma writes_after_stamp gv raw :
  writes_within ("app_temp" :: targets)
    (run_all (categories gv raw) ;;; assign_app_temp).
Proof.
  apply writes_bind.
  - eapply writes_incl; [| apply writes_categories]. apply incl_tl, incl_refl.
  - intros _. eapply writes_incl; [| apply writes_assign_app_temp].
    intros k [<- | []]. left. reflexivity.
Qed.

(** The time stamp the pass sets is the one the record ends with. *)
Lemma mapping_dt gv lasttime raw :
  dict_get "dt" (record_of (mapping gv lasttime raw clearweather))
  = Some (Some (NInt (Rtrunc lasttime))).
Proof.
  rewrite mapping_from_started.
  destruct (writes_after_stamp gv raw (started lasttime)) as (ws & F & Hr & _).
  destruct ((run_all (categories gv raw) ;;; assign_app_temp) (started lasttime))
    as [[w l] r].
  unfold record_of in *. simpl in *. subst w.
  rewrite apply_writes_untouched; [reflexivity |].
  intros Hin. apply not_written_by_fields.
  apply in_map_iff in Hin as ([k v] & <- & Hkv).
  rewrite Forall_forall in F. exact (F _ Hkv).
Qed.

(** ** C1: what a failure of the cleaning function does to the pass *)


Lemma cleaning_fails_raises gv body x w w' l e :
  cleaning_fails gv body x w w' l e -> body x w = (w', l, Raise e).
Proof.
  intros H. destruct H as [o code name val w e Hid Hcode Hval Hgv
                          | table earlier later k name v w w' l e Hk Hgv Hearlier].
  - unfold map_observation. simpl py_getitem. unfold subscript.
    rewrite Hid, bind_lift_Ok.
    change (py_lookup (PStr code) OBSERVATION_MAP)
      with (Ok (A := option string) (dict_get code OBSERVATION_MAP)).
    rewrite Hcode, bind_lift_Ok, Hval, bind_lift_Ok, Hgv.
    reflexivity.
  - unfold map_items. simpl py_items. rewrite bind_lift_Ok.
    rewrite <- (app_nil_r l).
    eapply for_each_raise; [exact Hearlier |].
    unfold map_item. cbn [fst snd]. rewrite Hk, Hgv. reflexivity.
Qed.



(** With [getval] as it is, no reading is ever mapped: every pass ends
    with an exception, and the record it leaves is the cleared record with
    the time stamp. *)
Lemma getval_writes_nothing raw :
  writes_within [] (run_all (categories getval raw)).
Proof.
  apply writes_run_all. unfold categories.
  repeat constructor; apply writes_category; intros x.
  1, 2: unfold map_observation;
    (apply writes_bind; [apply writes_lift | intros id]);
    apply writes_bind_lift; intros [name |] _; [| apply writes_ret];
    (apply writes_bind; [apply writes_lift | intros val]);
    apply writes_bind_lift; intros v Hv;
    rewrite getval_raises in Hv; discriminate Hv.
  all: unfold map_items;
    (apply writes_bind; [apply writes_lift | intros items]);
    apply writes_for_each; intros [k v]; unfold map_item; cbn [fst snd];
    destruct (dict_get k _) as [name |]; [| apply writes_ret];
    apply writes_bind_lift; intros a Ha;
    rewrite getval_raises in Ha; discriminate Ha.
Qed.

Lemma getval_pass_maps_nothing (lasttime : R) (raw : pyval) :
  record_of (mapping getval lasttime raw clearweather) = started lasttime /\
  raises (outcome (mapping getval lasttime raw clearweather)) = true.
Proof.
  rewrite mapping_from_started, bind_unfold.
  destruct (getval_writes_nothing raw (started lasttime)) as (ws & F & Hr & _).
  assert (ws = []) as ->.
  { destruct ws as [| kv ws]; [reflexivity |].
    apply Forall_inv in F. contradiction. }
  destruct (run_all (categories getval raw) (started lasttime))
    as [[w4 l4] [[] | e]]; unfold record_of in Hr; cbn [fst] in Hr;
    simpl in Hr; subst w4.
  - split; reflexivity.
  - split; reflexivity.
Qed.

(** ** C2 and C3: what a cycle does to the observation *)

Lemma started_inj (t1 t2 : Z) : started (IZR t1) = started (IZR t2) -> t1 = t2.
Proof.
  intros H. apply (f_equal (dict_get "dt")) in H.
  unfold started in H. rewrite !dict_get_set_eq, !Rtrunc_IZR in H.
  congruence.
Qed.

Lemma started_not_clear (t : Z) : t <> 0%Z -> clearweather <> started (IZR t).
Proof.
  intros Ht H. apply (f_equal (dict_get "dt")) in H.
  unfold started in H. rewrite dict_get_set_eq, Rtrunc_IZR in H.
  simpl in H. congruence.
Qed.

Lemma second_cycle_records :
  weather after_first_cycle = started 100 /\
  weather (after second_cycle) = started 200 /\
  observable second_cycle = [started 100; clearweather; started 200].
Proof.
  unfold second_cycle, after_first_cycle.
  rewrite !(poll_cycle_loaded _ _ _ _ _ _ _ (PDict [])) by reflexivity.
  repeat split; reflexivity.
Qed.

(** C2, as stated, fails on the program: during the second cycle the
    global record is, at one point, the cleared record, which is neither
    the observation of the first cycle nor the one the second cycle ends
    with. *)
Lemma atomic_replace_counterexample :
  exists w,
    In w (observable second_cycle) /\
    w <> weather after_first_cycle /\
    w <> weather (after second_cycle).
Proof.
  destruct second_cycle_records as (H1 & H2 & H3).
  exists clearweather. rewrite H1, H2, H3. repeat split.
  - right. left. reflexivity.
  - apply (started_not_clear 100). discriminate.
  - apply (started_not_clear 200). discriminate.
Qed.

(** C2 (amended): one load of the global record, as [json.dumps(weather)]
    makes on [/json] and [/all], obtains while a cycle runs the previous
    observation, or the fresh record [clearweather()] installed with the
    time stamp and the first [n] further assignments of the cycle applied,
    for some [n]: possibly the bare defaults, possibly a partly filled
    record.  The assignments are those of the pass on the payload fetched:
    they are the same whatever the previous observation was, so such a load
    never shows a value of the previous observation next to values of the
    new one.  The record the cycle ends with is the previous one, when
    nothing was fetched, and otherwise the fresh record with all the
    assignments applied.  (A handler that subscripts the global several
    times, as [/], [/wind], [/indoor] and [/aqi] do, loads it anew at each
    subscript; what it assembles from several loads is not covered.) *)
Theorem reader_sees_prefix_of_cycle
    (conf : config) (gv : pyval -> result num)
    (network : http_get -> fetch_outcome)
    (influx : Z -> record -> sink_outcome)
    (currentts lasttime : R) :
  exists writes : list (string * option num),
    Forall (fun kv => In (fst kv) ("app_temp" :: targets)) writes /\
    forall g : globals,
      let c := poll_cycle conf gv network influx currentts lasttime g in
      if fetch_failed (network (fetch_request conf))
      then observable c = [weather g] /\ after c = g
      else
        observable c
        = weather g :: clearweather :: started lasttime
          :: scan writes (started lasttime) /\
        weather (after c) = apply_writes writes (started lasttime) /\
        forall w, In w (observable c) ->
          w = weather g \/
          exists n,
            w = apply_writes
                  (firstn n (("dt", Some (NInt (Rtrunc lasttime))) :: writes))
                  clearweather.
Proof.
  destruct (fetch_failed (network (fetch_request conf))) eqn:Hf.
  - exists []. split; [constructor |]. intros g. cbv zeta.
    rewrite (poll_cycle_idle _ _ _ _ _ _ _ (fetch_failed_true _ Hf)).
    split; reflexivity.
  - destruct (fetch_failed_false _ Hf) as [payload Hnet].
    destruct (writes_after_stamp gv payload (started lasttime))
      as (ws & F & Hr & Hs).
    exists ws. split; [exact F |]. intros g. cbv zeta.
    rewrite (poll_cycle_loaded _ _ _ _ _ _ _ payload Hnet). cbv zeta.
    cbn [after weather observable]. rewrite mapping_from_started.
    destruct ((run_all (categories gv payload) ;;; assign_app_temp)
                (started lasttime)) as [[w1 l1] r1].
    unfold record_of, snapshots in *. cbn [fst snd] in *. subst w1 l1.
    split; [reflexivity |]. split; [reflexivity |].
    intros w [<- | [<- | [<- | Hin]]].
    + left. reflexivity.
    + right. exists 0%nat. reflexivity.
    + right. exists 1%nat. reflexivity.
    + right. destruct (scan_prefix _ _ _ Hin) as [n ->].
      exists (S n). reflexivity.
Qed.




(** ** C4: an exception in one category *)

(** C4, as stated, fails on the program: the first category raises (its
    reading has no ["id"]), and the indoor temperature the payload carries
    is not mapped, whether values are cleaned by [getval] or by a function
    that never fails. *)
Lemma category_isolation_counterexample :
  let payload :=
    PDict [("common_list", PList [PDict [("val", PStr "20.5")]]);
           ("wh25", PList [PDict [("intemp", PStr "21.0")]])] in
  common_list getval payload (started 200) = (started 200, [], Raise KeyError) /\
  dict_get "inside_temp"
    (record_of (clear_and_map getval 200 payload clearweather)) = Some None /\
  dict_get "inside_temp"
    (record_of (clear_and_map accept_all 200 payload clearweather)) = Some None /\
  dict_get "inside_temp"
    (record_of (wh25 accept_all payload (started 200))) = Some (Some (NInt 1)).
Proof.
  cbv zeta. rewrite !clear_and_map_unfold. unfold record_of. cbn [fst].
  repeat split; reflexivity.
Qed.

(** C4 (amended): when the mapping of a category raises, the exception is
    absorbed by the one handler around the whole pass.  The pass ends in the
    state the failing category left: what the time stamp, the earlier
    categories and the earlier part of the failing one assigned is kept, and
    the categories after it and [app_temp] are not mapped. *)
Theorem category_failure_ends_pass
    (gv : pyval -> result num) (lasttime : R) (raw : pyval) (w0 : record)
    (pre post : list (M unit)) (step : M unit)
    (w1 w2 : record) (l1 l2 : list record) (e : exn) :
  categories gv raw = (pre ++ step :: post)%list ->
  run_all pre (started lasttime) = (w1, l1, Ok tt) ->
  step w1 = (w2, l2, Raise e) ->
  clear_and_map gv lasttime raw w0
  = (w2, clearweather :: started lasttime :: (l1 ++ l2)%list, Ok tt).
Proof. apply pass_raise. Qed.

Lemma category_failure_ends_pass_witness :
  let payload :=
    PDict [("common_list", PList [observation_of "0x02" "20.5"]);
           ("rain", PList [PNum (NInt 3)]);
           ("wh25", PList [PDict [("intemp", PStr "21.0")]])] in
  clear_and_map accept_all 200 payload clearweather
  = (dict_set "temperature" (Some (NInt 1)) (started 200),
     [clearweather; started 200;
      dict_set "temperature" (Some (NInt 1)) (started 200)],
     Ok tt).
Proof.
  intros payload.
  apply (category_failure_ends_pass accept_all 200 payload clearweather
           [common_list accept_all payload]
           [wh25 accept_all payload; co2 accept_all payload]
           (rain accept_all payload)
           (dict_set "temperature" (Some (NInt 1)) (started 200))
           (dict_set "temperature" (Some (NInt 1)) (started 200))
           [dict_set "temperature" (Some (NInt 1)) (started 200)] []
           TypeError);
    reflexivity.
Defined.

(** ** C5: the apparent temperature *)

(** At the singular temperature the division raises. *)
Lemma app_temp_singular (H W : num) :
  app_temp (Some (NFloat (- 237.7))) (Some H) (Some W) = Raise ZeroDivisionError.
Proof.
  unfold app_temp.
  assert (EW : py_float (Some W) = Ok (float_of W)) by (destruct W; reflexivity).
  assert (EH : py_int (Some H) = Ok (int_of H)) by (destruct H; reflexivity).
  rewrite EW, EH. simpl. unfold py_div.
  destruct (Req_dec_T (237.7 + - 237.7) 0) as [_ | Hn]; [reflexivity |].
  exfalso. apply Hn. lra.
Qed.

(** C5, as stated, fails on the program: at a humidity of 50.5 % the code
    uses [int(50.5) = 50], and its result differs from the formula taken at
    50.5; and at a temperature of -237.7 it returns no value. *)
Lemma app_temp_counterexample :
  app_temp (Some (NFloat 20)) (Some (NFloat 50.5)) (Some (NFloat 10))
  <> Ok (NFloat (steadman 20 50.5 10)) /\
  app_temp (Some (NFloat (- 237.7))) (Some (NInt 50)) (Some (NInt 10))
  = Raise ZeroDivisionError.
Proof.
  split; [| apply app_temp_singular].
  rewrite app_temp_numeric by (simpl; lra).
  simpl float_of. simpl int_of.
  rewrite (Rtrunc_between 50.5 50) by lra.
  intros H. injection H as H. revert H.
  unfold steadman, vapor_pressure.
  pose proof (exp_pos (17.27 * 20 / (237.7 + 20))) as Hpos.
  set (x := exp (17.27 * 20 / (237.7 + 20))) in *.
  lra.
Qed.

(** C5 (amended): for numeric inputs with a temperature above -237.7,
    [app_temp(T, H, W)] is [T + 0.33 e - 0.70 (W / 3.6) - 4.00] where
    [e = (int(H) / 100) * 6.105 * exp (17.27 T / (237.7 + T))]: the humidity
    enters truncated to a whole number.  When the humidity is a whole
    number, as for T = 20, H = 50, W = 10, this is the formula of the
    specification.  (Below -237.7 the exponent is unbounded and a float
    exponential overflows; those temperatures are left out.) *)
Theorem app_temp_steadman (T H W : num) :
  (- 237.7 < float_of T)%R ->
  app_temp (Some T) (Some H) (Some W)
  = Ok (NFloat (steadman (float_of T) (IZR (int_of H)) (float_of W))) /\
  (IZR (int_of H) = float_of H ->
   app_temp (Some T) (Some H) (Some W)
   = Ok (NFloat (steadman (float_of T) (float_of H) (float_of W)))).
Proof.
  intros HT. split.
  - apply app_temp_numeric, HT.
  - intros <-. apply app_temp_numeric, HT.
Qed.

Lemma app_temp_steadman_witness :
  app_temp (Some (NFloat 20)) (Some (NFloat 50)) (Some (NFloat 10))
  = Ok (NFloat (steadman 20 50 10)).
Proof.
  apply (app_temp_steadman (NFloat 20) (NFloat 50) (NFloat 10)).
  - simpl. lra.
  - simpl. rewrite Rtrunc_IZR. reflexivity.
Defined.

(** ** C6: a missing input of the apparent temperature *)

Lemma assign_app_temp_cases (w : record) :
  record_of (assign_app_temp w) = w \/
  exists t h v a,
    dict_get "temperature" w = Some (Some t) /\
    dict_get "humidity" w = Some (Some h) /\
    dict_get "wind_speed" w = Some (Some v) /\
    record_of (assign_app_temp w) = dict_set "app_temp" (Some a) w.
Proof.
  unfold assign_app_temp, read, lift, assign, subscript, record_of. simpl.
  destruct (dict_get "temperature" w) as [t |]; [| left; reflexivity].
  destruct (dict_get "humidity" w) as [h |]; [| left; reflexivity].
  destruct (dict_get "wind_speed" w) as [v |]; [| left; reflexivity].
  destruct (app_temp t h v) as [a | e] eqn:E; [| left; reflexivity].
  apply app_temp_Ok in E as (Ht & Hh & Hv).
  destruct t as [t |]; [| contradiction].
  destruct h as [h |]; [| contradiction].
  destruct v as [v |]; [| contradiction].
  right. exists t, h, v, a. repeat split; reflexivity.
Qed.

Lemma not_target_app_temp : ~ In "app_temp" targets.
Proof.
  intros H. simpl in H.
  repeat (destruct H as [H | H]; [discriminate H |]). exact H.
Qed.

(** The categories leave [app_temp] as [clearweather()] set it. *)
Lemma categories_keep_app_temp gv lasttime raw :
  dict_get "app_temp"
    (record_of (run_all (categories gv raw) (started lasttime))) = Some None.
Proof.
  destruct (writes_categories gv raw (started lasttime)) as (ws & F & Hr & _).
  rewrite Hr, apply_writes_untouched; [reflexivity |].
  intros Hin. apply not_target_app_temp.
  apply in_map_iff in Hin as ([k v] & <- & Hkv).
  rewrite Forall_forall in F. exact (F _ Hkv).
Qed.

(** C6: when, at the end of the pass, the temperature, the humidity or the
    wind speed of the record is [None], the [app_temp] field of the record
    is [None] and no exception leaves the pass.  ([app_temp] itself raises
    [TypeError] on a [None] argument, see [app_temp_None]; the handler
    around the pass absorbs it and the field keeps the value
    [clearweather()] gave it.) *)
Theorem missing_input_leaves_app_temp_absent
    (gv : pyval -> result num) (lasttime : R) (raw : pyval) (w0 : record) :
  let pass := clear_and_map gv lasttime raw w0 in
  dict_get "temperature" (record_of pass) = Some None \/
  dict_get "humidity" (record_of pass) = Some None \/
  dict_get "wind_speed" (record_of pass) = Some None ->
  dict_get "app_temp" (record_of pass) = Some None /\ outcome pass = Ok tt.
Proof.
  cbv zeta. rewrite clear_and_map_unfold. unfold outcome. cbn [fst snd record_of].
  intros Hmissing. split; [| reflexivity].
  revert Hmissing. rewrite mapping_from_started, bind_unfold.
  pose proof (categories_keep_app_temp gv lasttime raw) as Hkeep.
  destruct (run_all (categories gv raw) (started lasttime))
    as [[w4 l4] [[] | e]]; unfold record_of in Hkeep; cbn [fst] in Hkeep;
    [| intros _; exact Hkeep].
  destruct (assign_app_temp_cases w4) as [Hsame | (t & h & v & a & Ht & Hh & Hv & Hset)];
    destruct (assign_app_temp w4) as [[w5 l5] r5];
    unfold record_of in *; cbn [fst] in *; subst w5.
  - intros _. exact Hkeep.
  - rewrite !dict_get_set_neq by discriminate.
    rewrite Ht, Hh, Hv. intros [H | [H | H]]; discriminate H.
Qed.

Lemma missing_input_leaves_app_temp_absent_witness :
  let pass :=
    clear_and_map accept_all 200
      (PDict [("common_list",
               PList [observation_of "0x02" "20.5"; observation_of "0x07" "55%"])])
      clearweather in
  dict_get "wind_speed" (record_of pass) = Some None /\
  dict_get "app_temp" (record_of pass) = Some None /\ outcome pass = Ok tt.
Proof.
  intros pass. split; [reflexivity |].
  apply (missing_input_leaves_app_temp_absent accept_all 200 _ clearweather).
  right. right. reflexivity.
Defined.

(** ** The request handler *)

Section HandlerFacts.

Variable conf : config.
Variable json_dumps : pyval -> string.
Variable str_value : option num -> string.
Variable str_fromtimestamp str_utcfromtimestamp : R -> string.
Variable now : R.
Variable ru_maxrss : Z.

Local Abbreviation GET :=
  (do_GET conf json_dumps str_value str_fromtimestamp
          str_utcfromtimestamp now ru_maxrss).
Local Abbreviation route' :=
  (route conf json_dumps str_value str_fromtimestamp
         str_utcfromtimestamp now ru_maxrss).

Lemma route_unrouted path g :
  one_of path routes = false ->
  route' path g
  = Ok ("application/json", "Error: Unsupported Request", serverstats g).
Proof.
  intros H. unfold one_of, routes in H. cbn [existsb] in H.
  repeat (apply orb_false_elim in H as [? H]).
  unfold route, one_of. cbn [existsb].
  repeat match goal with
         | E : (path =? _) = false |- _ => rewrite E; clear E
         end.
  reflexivity.
Qed.

Lemma do_GET_weather path g : weather (fst (fst (GET path g))) = weather g.
Proof.
  unfold do_GET.
  destruct (route _ _ _ _ _ _ _ path g) as [[[ct msg] st] | e]; reflexivity.
Qed.

Lemma collect_rain_raises (w : record) :
  dict_get "rain_3h" w = None ->
  collect w (same ["rain_1h"; "rain_3h"; "snow_1h"; "snow_3h"; "rain_24h"])
  = Raise KeyError.
Proof.
  intros H. simpl. unfold subscript. rewrite H.
  destruct (dict_get "rain_1h" w); reflexivity.
Qed.

Lemma GET_rain_raises path g :
  one_of path ["/rain"; "/precipitation"] = true ->
  dict_get "rain_3h" (weather g) = None ->
  GET path g = (g, [send_response 200], Raise KeyError).
Proof.
  intros Hp Hw. unfold do_GET.
  assert (Hr : route' path g = Raise KeyError).
  { unfold one_of in Hp. cbn [existsb] in Hp.
    rewrite orb_false_r in Hp. apply orb_true_iff in Hp.
    destruct Hp as [Hp | Hp]; apply String.eqb_eq in Hp; subst path;
      unfold route, json_of; cbn [String.eqb Ascii.eqb Bool.eqb one_of existsb orb];
      rewrite (collect_rain_raises _ Hw); reflexivity. }
  rewrite Hr. reflexivity.
Qed.

End HandlerFacts.

(** ** Histories of the process *)

Section HistoryFacts.

Variable conf : config.
Variable gv : pyval -> result num.
Variable json_dumps : pyval -> string.
Variable str_value : option num -> string.
Variable str_fromtimestamp str_utcfromtimestamp : R -> string.

Local Abbreviation step :=
  (step conf gv json_dumps str_value str_fromtimestamp str_utcfromtimestamp).
Local Abbreviation run :=
  (run conf gv json_dumps str_value str_fromtimestamp str_utcfromtimestamp).

Lemma dict_get_absent {V : Type} (k : string) (d : dict V) :
  ~ In k (dict_keys d) -> dict_get k d = None.
Proof.
  induction d as [| [k' v] d IH]; simpl; [reflexivity |].
  intros Hn. destruct (k =? k') eqn:E.
  - apply String.eqb_eq in E. subst. tauto.
  - apply IH. tauto.
Qed.

Lemma step_never_set k g ev :
  ~ In k possible_keys -> never_set k g -> never_set k (step g ev).
Proof.
  intros Hk Hg. unfold never_set in *. destruct ev as [net inf ct lt | t rss path].
  - simpl.
    destruct (fetch_cases (net (fetch_request conf))) as [[payload Hnet] | Hnet].
    + rewrite (poll_cycle_loaded _ _ _ _ _ _ _ payload Hnet). cbv zeta.
      cbn [after weather].
      destruct (writes_mapping gv lt payload clearweather) as (ws & F & Hr & _).
      rewrite Hr, apply_writes_untouched.
      * apply dict_get_absent. intros Hin. apply Hk.
        unfold possible_keys. apply in_or_app. left. exact Hin.
      * intros Hin. apply Hk. unfold possible_keys. apply in_or_app. right.
        apply in_map_iff in Hin as ([k' v] & <- & Hkv).
        rewrite Forall_forall in F. exact (F _ Hkv).
    + rewrite (poll_cycle_idle _ _ _ _ _ _ _ Hnet). exact Hg.
  - simpl. rewrite do_GET_weather. exact Hg.
Qed.

Lemma run_never_set k history g :
  ~ In k possible_keys -> never_set k g -> never_set k (run history g).
Proof.
  intros Hk. revert g. unfold run.
  induction history as [| ev history IH]; intros g Hg; simpl; [exact Hg |].
  apply IH, step_never_set; assumption.
Qed.

Lemma rain_3h_impossible : ~ In "rain_3h" possible_keys.
Proof.
  intros H. unfold possible_keys in H. simpl in H.
  repeat (destruct H as [H | H]; [discriminate H |]). exact H.
Qed.

End HistoryFacts.

(** ** C7: a request for an unknown path *)

(** C7, as stated, fails on the program: after a request for
    [/nonexistent] the per-path counters have no entry for that path. *)
Lemma unknown_path_counterexample :
  let g' :=
    fst (fst (do_GET sample_conf (fun _ => "{}") (fun _ => "None")
                     (fun _ => "") (fun _ => "") 0 0 "/nonexistent"
                     (initial 0 0 0))) in
  one_of "/nonexistent" routes = false /\
  dict_get "/nonexistent" (uri (serverstats g')) = None /\
  errors (serverstats g') = 1%Z.
Proof. repeat split; reflexivity. Qed.

(** C7 (amended): a request for a path no branch answers returns the
    literal error payload with its headers, adds one to the error counter
    and one to the request counter, and leaves the per-path counters as they
    were: a path is counted only when the payload has no ["Error"] in it. *)
Theorem unknown_path_counts_error
    (conf : config) (json_dumps : pyval -> string)
    (str_value : option num -> string)
    (str_fromtimestamp str_utcfromtimestamp : R -> string)
    (now : R) (ru_maxrss : Z) (path : string) (g : globals) :
  one_of path routes = false ->
  let reply := do_GET conf json_dumps str_value str_fromtimestamp
                      str_utcfromtimestamp now ru_maxrss path g in
  let g' := fst (fst reply) in
  snd reply = Ok tt /\
  snd (fst reply)
  = [ send_response 200;
      send_header "Content-type" "application/json";
      send_header "Content-Length" "26";
      end_headers;
      wfile_write "Error: Unsupported Request" ] /\
  errors (serverstats g') = (errors (serverstats g) + 1)%Z /\
  gets (serverstats g') = (gets (serverstats g) + 1)%Z /\
  uri (serverstats g') = uri (serverstats g) /\
  weather g' = weather g.
Proof.
  intros Hp. cbv zeta. unfold do_GET.
  rewrite (route_unrouted _ _ _ _ _ _ _ _ _ Hp).
  repeat split; reflexivity.
Qed.

Lemma unknown_path_counts_error_witness :
  let reply :=
    do_GET sample_conf (fun _ => "{}") (fun _ => "None") (fun _ => "")
           (fun _ => "") 0 0 "/favicon.ico" after_first_cycle in
  one_of "/favicon.ico" routes = false /\
  errors (serverstats (fst (fst reply))) = 1%Z /\
  uri (serverstats (fst (fst reply))) = [].
Proof.
  intros reply. split; [reflexivity |].
  destruct (unknown_path_counts_error sample_conf (fun _ => "{}")
              (fun _ => "None") (fun _ => "") (fun _ => "") 0 0
              "/favicon.ico" after_first_cycle)
    as (_ & _ & He & _ & Hu & _).
  - reflexivity.
  - subst reply. split.
    + rewrite He. reflexivity.
    + rewrite Hu. reflexivity.
Defined.

(** ** C8: the rain request *)

(** C8 fails on the program.  Whatever the history of the process, the
    record served has no ["rain_3h"] key, so a request for [/rain] or
    [/precipitation] raises [KeyError] once [send_response(200)] has been
    called: no header is sent, no body is written, no counter moves. *)
Theorem rain_request_raises
    (conf : config) (gv : pyval -> result num) (json_dumps : pyval -> string)
    (str_value : option num -> string)
    (str_fromtimestamp str_utcfromtimestamp : R -> string)
    (history : list event) (t0 t1 t2 : Z) (now : R) (ru_maxrss : Z) :
  let g := run conf gv json_dumps str_value str_fromtimestamp
               str_utcfromtimestamp history (initial t0 t1 t2) in
  let GET := do_GET conf json_dumps str_value str_fromtimestamp
                    str_utcfromtimestamp now ru_maxrss in
  GET "/rain" g = (g, [send_response 200], Raise KeyError) /\
  GET "/precipitation" g = (g, [send_response 200], Raise KeyError).
Proof.
  cbv zeta.
  assert (H : dict_get "rain_3h"
                (weather (run conf gv json_dumps str_value str_fromtimestamp
                              str_utcfromtimestamp history (initial t0 t1 t2))) = None).
  { apply run_never_set; [apply rain_3h_impossible | reflexivity]. }
  split; apply GET_rain_raises; (reflexivity || exact H).
Qed.

(** ** C9: the fetch *)

(** C9 fails on the program.  A cycle makes one [requests.get] call, to the
    fixed URL of the station, and the call carries no [timeout]: the
    [TIMEOUT] setting does not reach it, whatever its value. *)
Theorem fetch_has_no_timeout
    (conf : config) (gv : pyval -> result num)
    (network : http_get -> fetch_outcome)
    (influx : Z -> record -> sink_outcome)
    (currentts lasttime : R) (g : globals) :
  filter is_fetch
         (effects (poll_cycle conf gv network influx currentts lasttime g))
  = [ HttpGet {| get_url := "http://" ++ ECOIP conf ++ "/get_livedata_info";
                 get_timeout := None |} ].
Proof.
  destruct (fetch_cases (network (fetch_request conf))) as [[payload Hnet] | Hnet].
  - rewrite (poll_cycle_loaded _ _ _ _ _ _ _ payload Hnet). cbv zeta.
    cbn [effects]. destruct (INFLUX conf); reflexivity.
  - rewrite (poll_cycle_idle _ _ _ _ _ _ _ Hnet). reflexivity.
Qed.

(** ** The status calls of [do_GET] *)

(** On every path and in every state, [do_GET] begins by calling
    [send_response(200)] and sets no other status code. *)
Lemma do_GET_status
    (conf : config) (json_dumps : pyval -> string)
    (str_value : option num -> string)
    (str_fromtimestamp str_utcfromtimestamp : R -> string)
    (now : R) (ru_maxrss : Z) (path : string) (g : globals) :
  let events := snd (fst (do_GET conf json_dumps str_value str_fromtimestamp
                                 str_utcfromtimestamp now ru_maxrss path g)) in
  hd_error events = Some (send_response 200) /\
  filter is_status events = [send_response 200].
Proof.
  cbv zeta. unfold do_GET.
  destruct (route _ _ _ _ _ _ _ path g) as [[[ct msg] st] | e];
    split; reflexivity.
Qed.

(** * Further properties of the code *)

(** ** [getval] and the stripping step *)

(** X1: [getval] never returns: whatever value it is given, a string or
    not, it raises [TypeError]. *)
Theorem getval_never_returns (val : pyval) :
  getval val = Raise TypeError /\ forall x, getval val <> Ok x.
Proof.
  rewrite getval_raises. split; [reflexivity | discriminate].
Qed.

Lemma strip_non_numeric_app (a b : string) :
  strip_non_numeric (a ++ b) = strip_non_numeric a ++ strip_non_numeric b.
Proof.
  induction a as [| c a IH]; simpl; [reflexivity |].
  destruct (is_digit c || is_dot c); simpl; rewrite IH; reflexivity.
Qed.

(** X3: the stripping step works character by character: stripping a
    concatenation is concatenating the strippings, stripping twice is
    stripping once, the result is never longer than the input, and a minus
    sign is stripped like any other character, so that a negative reading
    and its opposite strip to the same string. *)
Theorem strip_non_numeric_pieces (a b : string) :
  strip_non_numeric (a ++ b) = strip_non_numeric a ++ strip_non_numeric b /\
  strip_non_numeric (strip_non_numeric a) = strip_non_numeric a /\
  (String.length (strip_non_numeric a) <= String.length a)%nat /\
  strip_non_numeric ("-" ++ a) = strip_non_numeric a.
Proof.
  split; [apply strip_non_numeric_app |]. split; [| split].
  - apply strip_non_numeric_fixed, strip_non_numeric_numeric.
  - induction a as [| c a IH]; simpl; [lia |].
    destruct (is_digit c || is_dot c); simpl; lia.
  - reflexivity.
Qed.

(** ** [app_temp] *)

(** X4: on values of the weather record, [app_temp] raises [TypeError]
    exactly when one of its three arguments is [None]. *)
Theorem app_temp_TypeError_iff_None (temp humidity wind : option num) :
  app_temp temp humidity wind = Raise TypeError <->
  temp = None \/ humidity = None \/ wind = None.
Proof.
  split; [| apply app_temp_None].
  destruct temp as [T |]; [| auto].
  destruct humidity as [H |]; [| auto].
  destruct wind as [W |]; [| auto].
  intros E. exfalso. revert E. unfold app_temp.
  assert (EW : py_float (Some W) = Ok (float_of W)) by (destruct W; reflexivity).
  assert (ET : py_float (Some T) = Ok (float_of T)) by (destruct T; reflexivity).
  assert (EH : py_int (Some H) = Ok (int_of H)) by (destruct H; reflexivity).
  rewrite EW, ET, EH. simpl. unfold py_div.
  destruct (Req_dec_T (237.7 + float_of T) 0); discriminate.
Qed.

(** X5: an input that is present but zero is a value, not a missing one:
    with no wind and a humidity below 1 %, the apparent temperature is the
    temperature less 4. *)
Theorem app_temp_zero_boundary (T H W : num) :
  (- 237.7 < float_of T)%R ->
  int_of H = 0%Z ->
  float_of W = 0%R ->
  app_temp (Some T) (Some H) (Some W) = Ok (NFloat (float_of T - 4)).
Proof.
  intros HT HH HW. rewrite app_temp_numeric by exact HT.
  do 2 f_equal. unfold steadman, vapor_pressure. rewrite HH, HW.
  set (x := exp _). lra.
Qed.

Lemma app_temp_zero_boundary_witness :
  app_temp (Some (NInt 0)) (Some (NFloat 0.9)) (Some (NFloat 0))
  = Ok (NFloat (0 - 4)).
Proof.
  apply (app_temp_zero_boundary (NInt 0) (NFloat 0.9) (NFloat 0)).
  - simpl. lra.
  - simpl. apply Rtrunc_between; lra.
  - reflexivity.
Defined.

(** ** The mapping pass on unusual payloads *)

Lemma unmapped_reading_skipped gv x w :
  unmapped_reading x = true -> map_observation gv x w = (w, [], Ok tt).
Proof.
  destruct x as [| | | | | o]; try discriminate. simpl.
  unfold map_observation. simpl py_getitem. unfold subscript.
  destruct (dict_get "id" o) as [id |]; [| discriminate].
  destruct (py_lookup id OBSERVATION_MAP) as [[name |] | e] eqn:E;
    try discriminate.
  intros _. rewrite bind_lift_Ok, E, bind_lift_Ok. reflexivity.
Qed.

Lemma for_each_idle {A : Type} (body : A -> M unit) (l : list A) (w : record) :
  Forall (fun x => body x w = (w, [], Ok tt)) l ->
  for_each body l w = (w, [], Ok tt).
Proof.
  induction 1 as [| x l Hx _ IH]; [reflexivity |].
  change (for_each body (x :: l)) with (body x ;;; for_each body l).
  rewrite bind_unfold, Hx, IH. reflexivity.
Qed.

(** X6: readings whose code the table does not know are passed over: a
    list of such readings, under [common_list] or [rain], leaves the record
    as it was, takes no snapshot and raises nothing, whether or not the
    readings carry a ["val"]. *)
Theorem unmapped_readings_are_ignored
    (gv : pyval -> result num) (key : string)
    (payload : list (string * pyval)) (items : list pyval) (w : record) :
  dict_get key payload = Some (PList items) ->
  forallb unmapped_reading items = true ->
  category key (map_observation gv) (PDict payload) w = (w, [], Ok tt).
Proof.
  intros Hkey Hall. unfold category.
  simpl py_contains. unfold dict_mem. rewrite Hkey, bind_lift_Ok.
  simpl py_getitem. unfold subscript. rewrite Hkey, bind_lift_Ok.
  simpl py_iter. rewrite bind_lift_Ok.
  apply for_each_idle. apply Forall_forall. intros x Hx.
  apply unmapped_reading_skipped.
  rewrite forallb_forall in Hall. exact (Hall x Hx).
Qed.

Lemma unmapped_readings_are_ignored_witness :
  rain getval
    (PDict [("rain", PList [observation_of "0x0D" "0.0 mm";
                            PDict [("id", PNum (NInt 14))];
                            PDict [("id", PStr "srain_piezo")]])])
    (started 200)
  = (started 200, [], Ok tt).
Proof.
  apply (unmapped_readings_are_ignored getval "rain" _
           [observation_of "0x0D" "0.0 mm"; PDict [("id", PNum (NInt 14))];
            PDict [("id", PStr "srain_piezo")]]);
    reflexivity.
Defined.

(** X7: a payload that is [null], a boolean or a number makes the pass
    stop at its first membership test: the record published is the cleared
    record with the time stamp, for any cleaning function. *)
Theorem scalar_payload_maps_nothing
    (gv : pyval -> result num) (lasttime : R) (raw : pyval) (w0 : record) :
  is_scalar raw = true ->
  mapping gv lasttime raw clearweather
  = (started lasttime, [started lasttime], Raise TypeError) /\
  clear_and_map gv lasttime raw w0
  = (started lasttime, [clearweather; started lasttime], Ok tt).
Proof.
  intros Hs.
  assert (H : mapping gv lasttime raw clearweather
              = (started lasttime, [started lasttime], Raise TypeError)).
  { destruct raw; try discriminate; reflexivity. }
  split; [exact H |].
  rewrite clear_and_map_unfold, H. reflexivity.
Qed.

Lemma scalar_payload_maps_nothing_witness :
  clear_and_map accept_all 200 (PNum (NInt 7)) (started 100)
  = (started 200, [clearweather; started 200], Ok tt).
Proof.
  apply (scalar_payload_maps_nothing accept_all 200 (PNum (NInt 7)) (started 100)).
  reflexivity.
Defined.

Lemma category_absent key body raw w :
  py_contains key raw = Ok false -> category key body raw w = (w, [], Ok tt).
Proof.
  intros H. unfold category. rewrite H, bind_lift_Ok. reflexivity.
Qed.

Lemma run_all_idle (steps : list (M unit)) (w : record) :
  Forall (fun step => step w = (w, [], Ok tt)) steps ->
  run_all steps w = (w, [], Ok tt).
Proof. apply for_each_idle. Qed.

(** X8: a payload that has none of the four categories is accepted by the
    four blocks, which assign nothing; the pass then fails on the apparent
    temperature of the three absent readings, and leaves the cleared record
    with the time stamp. *)
Theorem payload_without_categories
    (gv : pyval -> result num) (lasttime : R) (raw : pyval) :
  py_contains "common_list" raw = Ok false ->
  py_contains "rain" raw = Ok false ->
  py_contains "wh25" raw = Ok false ->
  py_contains "co2" raw = Ok false ->
  run_all (categories gv raw) (started lasttime) = (started lasttime, [], Ok tt) /\
  mapping gv lasttime raw clearweather
  = (started lasttime, [started lasttime], Raise TypeError).
Proof.
  intros H1 H2 H3 H4.
  assert (H : run_all (categories gv raw) (started lasttime)
              = (started lasttime, [], Ok tt)).
  { apply run_all_idle. unfold categories, common_list, rain, wh25, co2.
    repeat constructor; apply category_absent; assumption. }
  split; [exact H |].
  rewrite mapping_from_started, bind_unfold, H. reflexivity.
Qed.

Lemma payload_without_categories_witness :
  mapping accept_all 200
    (PDict [("piezoRain", PList []); ("ch_aisle", PList [])]) clearweather
  = (started 200, [started 200], Raise TypeError).
Proof.
  apply (payload_without_categories accept_all 200); reflexivity.
Defined.

(** ** The poll cycle and the loop *)

(** X9: when the request raises, the status is not 200 or the body is not
    JSON, the cycle changes nothing: the record, the raw payload, the
    loaded flag and every counter are as before (no error is counted), and
    all the cycle did is the one request. *)
Theorem failed_fetch_changes_nothing
    (conf : config) (gv : pyval -> result num)
    (network : http_get -> fetch_outcome)
    (influx : Z -> record -> sink_outcome)
    (currentts lasttime : R) (g : globals) :
  fetch_failed (network (fetch_request conf)) = true ->
  poll_cycle conf gv network influx currentts lasttime g
  = {| after := g; observable := [weather g];
       effects := [HttpGet (fetch_request conf)] |}.
Proof.
  intros H. apply poll_cycle_idle, fetch_failed_true, H.
Qed.

Lemma failed_fetch_changes_nothing_witness :
  after (poll_cycle sample_conf getval
                    (fun _ => Response 404 (Some (PDict [])))
                    sink_up 300 300 after_first_cycle)
  = after_first_cycle.
Proof.
  rewrite (failed_fetch_changes_nothing sample_conf getval
             (fun _ => Response 404 (Some (PDict []))) sink_up 300 300
             after_first_cycle); reflexivity.
Defined.

Lemma poll_counters
    (conf : config) (gv : pyval -> result num)
    (network : http_get -> fetch_outcome)
    (influx : Z -> record -> sink_outcome)
    (currentts lasttime : R) (g : globals) :
  let s := serverstats g in
  let s' := serverstats
              (after (poll_cycle conf gv network influx currentts lasttime g)) in
  gets s' = gets s /\ errors s' = errors s /\ uri s' = uri s /\
  (influxdb s <= influxdb s')%Z /\ (influxdberrors s <= influxdberrors s')%Z.
Proof.
  cbv zeta.
  destruct (fetch_cases (network (fetch_request conf))) as [[payload Hnet] | Hnet].
  - rewrite (poll_cycle_loaded _ _ _ _ _ _ _ payload Hnet). cbv zeta.
    cbn [after serverstats]. destruct (INFLUX conf).
    + unfold write_influx.
      destruct (influx _ _) as [| [|] [|]];
        cbn [count_influx gets errors uri influxdb influxdberrors];
        repeat split; try reflexivity; lia.
    + repeat split; try reflexivity; lia.
  - rewrite (poll_cycle_idle _ _ _ _ _ _ _ Hnet). cbn [after].
    repeat split; try reflexivity; lia.
Qed.

(** X10: a cycle never touches the request counters, and moves the sink
    counters only when it fetched a payload with the sink enabled: then
    [influxdb] grows by at most one, [influxdberrors] by at most two, and
    one of them grows.  A write that succeeds and whose [close()] raises is
    counted once as a success and once as an error. *)
Theorem cycle_counters
    (conf : config) (gv : pyval -> result num)
    (network : http_get -> fetch_outcome)
    (influx : Z -> record -> sink_outcome)
    (currentts lasttime : R) (g : globals) :
  let s := serverstats g in
  let c := poll_cycle conf gv network influx currentts lasttime g in
  let s' := serverstats (after c) in
  gets s' = gets s /\ errors s' = errors s /\ uri s' = uri s /\
  (influxdb s <= influxdb s' <= influxdb s + 1)%Z /\
  (influxdberrors s <= influxdberrors s' <= influxdberrors s + 2)%Z /\
  (INFLUX conf = false \/ fetch_failed (network (fetch_request conf)) = true ->
   s' = s) /\
  (INFLUX conf = true ->
   fetch_failed (network (fetch_request conf)) = false ->
   (influxdb s + influxdberrors s < influxdb s' + influxdberrors s')%Z /\
   (influx (Rtrunc currentts) (weather (after c)) = SinkWrote true true ->
    influxdb s' = (influxdb s + 1)%Z /\
    influxdberrors s' = (influxdberrors s + 1)%Z)).
Proof.
  cbv zeta.
  destruct (fetch_failed (network (fetch_request conf))) eqn:Hf.
  - rewrite (poll_cycle_idle _ _ _ _ _ _ _ (fetch_failed_true _ Hf)).
    cbn [after]. repeat split; try lia; try discriminate.
  - destruct (fetch_failed_false _ Hf) as [payload Hnet].
    rewrite (poll_cycle_loaded _ _ _ _ _ _ _ payload Hnet). cbv zeta.
    cbn [after serverstats weather].
    destruct (INFLUX conf).
    + unfold write_influx.
      destruct (influx (Rtrunc currentts)
                       (record_of (mapping gv lasttime payload clearweather)))
        as [| [|] [|]]; cbn [count_influx gets errors uri influxdb influxdberrors];
        repeat split; try lia; try discriminate;
        intros [H | H]; discriminate H.
    + repeat split; try lia; try discriminate.
Qed.

Lemma turn_asks_iff_due conf gv network influx nextupdate currentts lasttime g :
  let r := fetchWeather_turn conf gv network influx nextupdate currentts lasttime g in
  ((nextupdate <= currentts)%R ->
   existsb is_fetch (effects (snd r)) = true /\
   fst r = (currentts + IZR (10 * ECOWAIT conf))%R) /\
  (~ (nextupdate <= currentts)%R ->
   existsb is_fetch (effects (snd r)) = false /\ fst r = nextupdate /\
   after (snd r) = g).
Proof.
  cbv zeta. unfold fetchWeather_turn.
  destruct (Rle_dec nextupdate currentts) as [Hd | Hn]; split; intros H;
    try contradiction.
  - cbn [fst snd]. split; [| reflexivity].
    destruct (fetch_cases (network (fetch_request conf))) as [[payload Hnet] | Hnet].
    + rewrite (poll_cycle_loaded _ _ _ _ _ _ _ payload Hnet). reflexivity.
    + rewrite (poll_cycle_idle _ _ _ _ _ _ _ Hnet). reflexivity.
  - repeat split.
Qed.

(** X11: the loop never asks the station twice within [10 * ECOWAIT]
    seconds: the clock readings of two successive polls are at least that
    far apart, and no poll comes before the [nextupdate] the loop started
    with. *)
Theorem polls_are_spaced
    (conf : config) (gv : pyval -> result num)
    (turns : list turn) (nextupdate : R) (g : globals) :
  let times := poll_times (snd (fetchWeather conf gv turns nextupdate g)) in
  first_not_before nextupdate times /\
  spaced (IZR (10 * ECOWAIT conf)) times.
Proof.
  cbv zeta. revert nextupdate g.
  induction turns as [| t turns IH]; intros nextupdate g; [simpl; auto |].
  simpl fetchWeather.
  set (r := fetchWeather_turn conf gv (turn_network t) (turn_influx t)
                              nextupdate (turn_currentts t) (turn_lasttime t) g).
  specialize (IH (fst r) (after (snd r))).
  destruct (fetchWeather conf gv turns (fst r) (after (snd r)))
    as [[g' nu'] log].
  cbn [snd] in *. unfold poll_times in *. simpl filter.
  destruct (turn_asks_iff_due conf gv (turn_network t) (turn_influx t)
              nextupdate (turn_currentts t) (turn_lasttime t) g) as [Hdue Hnot].
  fold r in Hdue, Hnot.
  destruct (Rle_dec nextupdate (turn_currentts t)) as [Hd | Hn].
  - destruct (Hdue Hd) as [Hask Hnext]. rewrite Hask. simpl map.
    rewrite Hnext in IH. destruct IH as [Hfirst Hsp].
    split; [exact Hd |]. simpl. split; [| exact Hsp].
    destruct (map fst (filter _ log)); [exact I | exact Hfirst].
  - destruct (Hnot Hn) as (Hask & Hnext & _). rewrite Hask.
    rewrite Hnext in IH. exact IH.
Qed.

(** ** Requests *)

Section RequestFacts.

Variable conf : config.
Variable json_dumps : pyval -> string.
Variable str_value : option num -> string.
Variable str_fromtimestamp str_utcfromtimestamp : R -> string.
Variable now : R.
Variable ru_maxrss : Z.

Local Abbreviation GET :=
  (do_GET conf json_dumps str_value str_fromtimestamp
          str_utcfromtimestamp now ru_maxrss).
Local Abbreviation route' :=
  (route conf json_dumps str_value str_fromtimestamp
         str_utcfromtimestamp now ru_maxrss).

(** A branch leaves the statistics as they were, or stamped by [/stats]. *)
Lemma route_stats path g ct msg st :
  route' path g = Ok (ct, msg, st) ->
  st = serverstats g \/
  st = stamp_stats (Rtrunc now) ru_maxrss (serverstats g).
Proof.
  unfold route. intros H.
  repeat match type of H with
         | context [if ?c then _ else _] => destruct c
         end;
    try (injection H as _ _ <-; auto; fail);
    match type of H with
    | context [bind ?m _] =>
        destruct m; simpl in H; [injection H as _ _ <-; auto | discriminate H]
    end.
Qed.

Lemma GET_cases path g :
  (exists e, route' path g = Raise e /\
             GET path g = (g, [send_response 200], Raise e)) \/
  (exists ct msg st,
      route' path g = Ok (ct, msg, st) /\
      snd (GET path g) = Ok tt /\
      fst (fst (GET path g)) = with_serverstats g (count path msg st)).
Proof.
  unfold do_GET.
  destruct (route _ _ _ _ _ _ _ path g) as [[[ct msg] st] | e].
  - right. exists ct, msg, st. repeat split.
  - left. exists e. split; reflexivity.
Qed.

Lemma GET_frame (path : string) (g : globals) :
  let g' := fst (fst (GET path g)) in
  weather g' = weather g /\ raw g' = raw g /\ LOADED g' = LOADED g.
Proof.
  cbv zeta. unfold do_GET.
  destruct (route _ _ _ _ _ _ _ path g) as [[[ct msg] st] | e]; repeat split.
Qed.

(** X12: a request only reads the observation: whatever the path, the
    record, the raw payload and the loaded flag are as before; and a
    request that raises leaves the counters as they were too. *)
Theorem request_is_read_only (path : string) (g : globals) :
  let reply := GET path g in
  let g' := fst (fst reply) in
  weather g' = weather g /\ raw g' = raw g /\ LOADED g' = LOADED g /\
  (snd reply <> Ok tt -> g' = g).
Proof.
  cbv zeta. destruct (GET_cases path g) as [(e & _ & ->) | (ct & msg & st & _ & Hr & ->)].
  - repeat split.
  - repeat split. intros H. contradiction.
Qed.

Lemma uri_total_set (path : string) (d : dict Z) :
  uri_total
    (dict_set path
       (match dict_get path d with Some n => (n + 1)%Z | None => 1%Z end) d)
  = (uri_total d + 1)%Z.
Proof.
  induction d as [| [k v] d IH]; simpl.
  - lia.
  - destruct (path =? k) eqn:E; simpl.
    + lia.
    + rewrite IH. lia.
Qed.

(** What the counting block does to the three request counters. *)
Lemma count_effect path msg st s :
  st = s \/ st = stamp_stats (Rtrunc now) ru_maxrss s ->
  let s' := count path msg st in
  gets s' = (gets s + 1)%Z /\
  influxdb s' = influxdb s /\ influxdberrors s' = influxdberrors s /\
  ((contains "Error" msg = true /\
    errors s' = (errors s + 1)%Z /\ uri s' = uri s) \/
   (contains "Error" msg = false /\
    errors s' = errors s /\
    uri s' = dict_set path
               (match dict_get path (uri s) with
                | Some n => (n + 1)%Z
                | None => 1%Z
                end) (uri s))).
Proof.
  intros Hst. cbv zeta. unfold count.
  destruct (contains "Error" msg); destruct Hst as [-> | ->]; simpl;
    repeat split; auto.
Qed.

End RequestFacts.

(** ** Invariants of the process *)

Lemma counts_le_refl d : counts_le d d.
Proof. intros k n H. exists n. split; [exact H | lia]. Qed.

Lemma counts_le_trans d1 d2 d3 :
  counts_le d1 d2 -> counts_le d2 d3 -> counts_le d1 d3.
Proof.
  intros H12 H23 k n H.
  destruct (H12 k n H) as (n2 & H2 & Hle2).
  destruct (H23 k n2 H2) as (n3 & H3 & Hle3).
  exists n3. split; [exact H3 | lia].
Qed.

Lemma counts_le_set path d :
  counts_le d
    (dict_set path
       (match dict_get path d with Some n => (n + 1)%Z | None => 1%Z end) d).
Proof.
  intros k n H. destruct (String.eqb_spec k path) as [-> | Hne].
  - rewrite dict_get_set_eq, H. exists (n + 1)%Z. split; [reflexivity | lia].
  - rewrite dict_get_set_neq by exact Hne. exists n. split; [exact H | lia].
Qed.

Lemma dict_keys_set {V : Type} (P : string -> Prop) (k : string) (v : V) (d : dict V) :
  P k -> Forall P (dict_keys d) -> Forall P (dict_keys (dict_set k v d)).
Proof.
  intros Hk. induction d as [| [k' v'] d IH]; simpl; intros Hd.
  - constructor; [exact Hk | constructor].
  - inversion Hd as [| ? ? Hk' Hd']; subst.
    destruct (k =? k'); simpl; constructor; auto.
Qed.

Lemma dict_set_keys {V : Type} (k : string) (v : V) (d : dict V) :
  dict_keys (dict_set k v d)
  = if dict_mem k d then dict_keys d else (dict_keys d ++ [k])%list.
Proof.
  unfold dict_mem. induction d as [| [k' v'] d IH]; simpl; [reflexivity |].
  destruct (String.eqb_spec k k') as [-> | Hne]; simpl; [reflexivity |].
  rewrite IH. destruct (dict_get k d); reflexivity.
Qed.

Lemma dict_mem_false_not_In {V : Type} (k : string) (d : dict V) :
  dict_mem k d = false -> ~ In k (dict_keys d).
Proof.
  unfold dict_mem. induction d as [| [k' v'] d IH]; simpl; [tauto |].
  destruct (String.eqb_spec k k') as [-> | Hne]; [discriminate |].
  intros H [E | Hin]; [congruence | exact (IH H Hin)].
Qed.

Lemma dict_set_NoDup {V : Type} (k : string) (v : V) (d : dict V) :
  NoDup (dict_keys d) -> NoDup (dict_keys (dict_set k v d)).
Proof.
  intros Hd. rewrite dict_set_keys.
  destruct (dict_mem k d) eqn:E; [exact Hd |].
  apply NoDup_app; [exact Hd | repeat constructor; simpl; tauto |].
  intros x Hx [<- | []]. exact (dict_mem_false_not_In _ _ E Hx).
Qed.

Lemma dict_get_absent_not {V : Type} (k : string) (d : dict V) :
  In k (dict_keys d) -> dict_get k d <> None.
Proof.
  induction d as [| [k' v] d IH]; simpl; [contradiction |].
  intros [-> | Hin].
  - rewrite String.eqb_refl. discriminate.
  - destruct (k =? k'); [discriminate | auto].
Qed.

Section Invariants.

Variable conf : config.
Variable gv : pyval -> result num.
Variable json_dumps : pyval -> string.
Variable str_value : option num -> string.
Variable str_fromtimestamp str_utcfromtimestamp : R -> string.

Local Abbreviation step' :=
  (step conf gv json_dumps str_value str_fromtimestamp str_utcfromtimestamp).
Local Abbreviation run' :=
  (run conf gv json_dumps str_value str_fromtimestamp str_utcfromtimestamp).
Local Abbreviation GET :=
  (do_GET conf json_dumps str_value str_fromtimestamp str_utcfromtimestamp).
Local Abbreviation route' :=
  (route conf json_dumps str_value str_fromtimestamp str_utcfromtimestamp).

Lemma run_invariant (P : globals -> Prop) :
  (forall g ev, P g -> P (step' g ev)) ->
  forall history g, P g -> P (run' history g).
Proof.
  intros Hstep history. unfold run.
  induction history as [| ev history IH]; intros g Hg; simpl; auto.
Qed.

(** How one event moves the counters. *)
Lemma step_counters g ev :
  let s := serverstats g in
  let s' := serverstats (step' g ev) in
  (gets s <= gets s')%Z /\ (errors s <= errors s')%Z /\
  (influxdb s <= influxdb s')%Z /\ (influxdberrors s <= influxdberrors s')%Z /\
  counts_le (uri s) (uri s') /\
  (gets s' - errors s' - uri_total (uri s')
   = gets s - errors s - uri_total (uri s))%Z /\
  (Forall (fun k => In k routes) (dict_keys (uri s)) ->
   Forall (fun k => In k routes) (dict_keys (uri s'))) /\
  (NoDup (dict_keys (uri s)) -> NoDup (dict_keys (uri s'))).
Proof.
  cbv zeta. destruct ev as [network influx currentts lasttime | now rss path].
  - simpl step.
    destruct (poll_counters conf gv network influx currentts lasttime g)
      as (Hg & He & Hu & Hi & Hie).
    rewrite Hg, He, Hu. repeat split; try lia; auto using counts_le_refl.
  - simpl step.
    destruct (GET_cases conf json_dumps str_value str_fromtimestamp
                str_utcfromtimestamp now rss path g)
      as [(e & _ & ->) | (ct & msg & st & Hroute & _ & ->)].
    + cbn [fst]. repeat split; try lia; auto using counts_le_refl.
    + cbn [serverstats with_serverstats].
      pose proof (route_stats _ _ _ _ _ _ _ _ _ _ _ _ Hroute) as Hst.
      destruct (count_effect now rss path msg st (serverstats g) Hst)
        as (Hg & Hi & Hie & [(Hc & He & Hu) | (Hc & He & Hu)]);
        rewrite Hg, Hi, Hie, He, Hu.
      * repeat split; try lia; auto using counts_le_refl.
      * rewrite uri_total_set. repeat split; try lia.
        -- apply counts_le_set.
        -- intros Hkeys. apply dict_keys_set; [| exact Hkeys].
           destruct (one_of path routes) eqn:Hr.
           ++ unfold one_of in Hr. apply existsb_exists in Hr as (k & Hk & E).
              apply String.eqb_eq in E. subst k. exact Hk.
           ++ rewrite (route_unrouted _ _ _ _ _ _ _ _ _ Hr) in Hroute.
              injection Hroute as _ <- _. discriminate Hc.
        -- apply dict_set_NoDup.
Qed.


(** X14: the per-path counters only ever hold paths that a branch of
    [do_GET] answers, each once: a request for any other path is never
    recorded under its path, so the dictionary never has more entries than
    there are routes. *)
Theorem uri_keys_are_routes (history : list event) (t0 t1 t2 : Z) :
  let d := uri (serverstats (run' history (initial t0 t1 t2))) in
  Forall (fun k => In k routes) (dict_keys d) /\
  NoDup (dict_keys d) /\
  (List.length d <= List.length routes)%nat.
Proof.
  cbv zeta.
  assert (H : Forall (fun k => In k routes)
                (dict_keys (uri (serverstats (run' history (initial t0 t1 t2)))))
              /\ NoDup (dict_keys (uri (serverstats
                                         (run' history (initial t0 t1 t2)))))).
  { apply (run_invariant
             (fun g => Forall (fun k => In k routes)
                              (dict_keys (uri (serverstats g))) /\
                       NoDup (dict_keys (uri (serverstats g)))));
      [| split; constructor].
    intros g ev [Hk Hn].
    destruct (step_counters g ev) as (_ & _ & _ & _ & _ & _ & Hkeys & Hnodup).
    auto. }
  destruct H as [Hk Hn]. repeat split; [exact Hk | exact Hn |].
  unfold dict_keys in *. rewrite <- (length_map fst).
  apply NoDup_incl_length; [exact Hn |].
  intros k Hin. rewrite Forall_forall in Hk. exact (Hk k Hin).
Qed.

(** X15: the counters never go down: along any history of events taken
    one at a time, the request, error and sink counters do not decrease,
    and a path that has a count keeps one at least as large. *)
Theorem counters_never_decrease (history : list event) (g : globals) :
  let s := serverstats g in
  let s' := serverstats (run' history g) in
  (gets s <= gets s')%Z /\ (errors s <= errors s')%Z /\
  (influxdb s <= influxdb s')%Z /\ (influxdberrors s <= influxdberrors s')%Z /\
  counts_le (uri s) (uri s').
Proof.
  cbv zeta.
  apply (run_invariant
           (fun g' => (gets (serverstats g) <= gets (serverstats g'))%Z /\
                      (errors (serverstats g) <= errors (serverstats g'))%Z /\
                      (influxdb (serverstats g) <= influxdb (serverstats g'))%Z /\
                      (influxdberrors (serverstats g)
                       <= influxdberrors (serverstats g'))%Z /\
                      counts_le (uri (serverstats g)) (uri (serverstats g'))));
    [| repeat split; try lia; apply counts_le_refl].
  intros g' ev (H1 & H2 & H3 & H4 & H5).
  destruct (step_counters g' ev) as (K1 & K2 & K3 & K4 & K5 & _).
  repeat split; try lia. eapply counts_le_trans; eassumption.
Qed.

(** What one event does to the record and the loaded flag. *)
Lemma step_frame g ev :
  (weather (step' g ev) = weather g /\ raw (step' g ev) = raw g /\
   LOADED (step' g ev) = LOADED g) \/
  (exists lasttime payload,
      weather (step' g ev) = record_of (mapping gv lasttime payload clearweather) /\
      LOADED (step' g ev) = true).
Proof.
  destruct ev as [network influx currentts lasttime | now rss path]; simpl step.
  - destruct (fetch_cases (network (fetch_request conf))) as [[payload Hnet] | Hnet].
    + right. exists lasttime, payload.
      rewrite (poll_cycle_loaded _ _ _ _ _ _ _ payload Hnet). split; reflexivity.
    + left. rewrite (poll_cycle_idle _ _ _ _ _ _ _ Hnet). repeat split.
  - left.
    destruct (GET_frame conf json_dumps str_value str_fromtimestamp
                str_utcfromtimestamp now rss path g) as (Hw & Hr & Hl).
    auto.
Qed.

(** X16: the loaded flag is never taken back: once a cycle has set it, it
    stays set through every later cycle, failed or not, and every
    request. *)
Theorem loaded_is_never_reset (history : list event) (g : globals) :
  LOADED g = true -> LOADED (run' history g) = true.
Proof.
  apply (run_invariant (fun g => LOADED g = true)).
  intros g' ev Hg.
  destruct (step_frame g' ev) as [(_ & _ & Hl) | (lt & payload & _ & Hl)];
    congruence.
Qed.

Lemma mapping_untouched (k : string) lasttime payload :
  ~ In k ("dt" :: "app_temp" :: targets) ->
  dict_get k (record_of (mapping gv lasttime payload clearweather))
  = dict_get k clearweather.
Proof.
  intros Hk.
  destruct (writes_mapping gv lasttime payload clearweather) as (ws & F & Hr & _).
  rewrite Hr. apply apply_writes_untouched.
  intros Hin. apply Hk.
  apply in_map_iff in Hin as ([k' v] & <- & Hkv).
  rewrite Forall_forall in F. exact (F _ Hkv).
Qed.

(** X17: nothing ever assigns [feels_like]: whatever the station sends and
    whatever the cleaning function returns, the field is [None] in every
    state of the process. *)
Theorem feels_like_is_always_None (history : list event) (t0 t1 t2 : Z) :
  dict_get "feels_like" (weather (run' history (initial t0 t1 t2))) = Some None.
Proof.
  apply (run_invariant
           (fun g => dict_get "feels_like" (weather g) = Some None));
    [| reflexivity].
  intros g ev Hg.
  destruct (step_frame g ev) as [(Hw & _) | (lt & payload & Hw & _)];
    rewrite Hw; [exact Hg |].
  rewrite mapping_untouched; [reflexivity |].
  intros H. simpl in H.
  repeat (destruct H as [H | H]; [discriminate H |]). exact H.
Qed.

Lemma apply_writes_keeps (k : string) ws (w : record) :
  dict_get k w <> None -> dict_get k (apply_writes ws w) <> None.
Proof.
  revert w. induction ws as [| [k' v'] ws IH]; intros w H; simpl; [exact H |].
  apply IH. destruct (String.eqb_spec k k') as [-> | Hne].
  - rewrite dict_get_set_eq. discriminate.
  - rewrite dict_get_set_neq by exact Hne. exact H.
Qed.

Lemma step_well_keyed g ev : well_keyed g -> well_keyed (step' g ev).
Proof.
  intros [Hkeys Hdt].
  destruct (step_frame g ev) as [(Hw & _) | (lt & payload & Hw & _)];
    unfold well_keyed; rewrite Hw; [split; assumption |].
  split.
  - destruct (writes_mapping gv lt payload clearweather) as (ws & _ & Hr & _).
    rewrite Hr. apply Forall_forall. intros k Hk.
    apply apply_writes_keeps, dict_get_absent_not. exact Hk.
  - eexists. apply mapping_dt.
Qed.

Lemma route_answered now rss path g :
  well_keyed g -> In path answered ->
  exists r, route' now rss path g = Ok r.
Proof.
  intros [Hkeys [n Hdt]] Hin.
  rewrite Forall_forall in Hkeys.
  assert (K : forall k, In k (dict_keys clearweather) ->
                        exists v, dict_get k (weather g) = Some v).
  { intros k Hk. specialize (Hkeys k Hk).
    destruct (dict_get k (weather g)) as [v |]; [eauto | contradiction]. }
  destruct (K "temperature") as [v1 H1]; [simpl; tauto |].
  destruct (K "humidity") as [v2 H2]; [simpl; tauto |].
  destruct (K "pressure") as [v3 H3]; [simpl; tauto |].
  destruct (K "feels_like") as [v4 H4]; [simpl; tauto |].
  destruct (K "app_temp") as [v5 H5]; [simpl; tauto |].
  destruct (K "wind_speed") as [v6 H6]; [simpl; tauto |].
  destruct (K "wind_deg") as [v7 H7]; [simpl; tauto |].
  destruct (K "wind_gust") as [v8 H8]; [simpl; tauto |].
  destruct (K "solar") as [v9 H9]; [simpl; tauto |].
  destruct (K "uvi") as [v10 H10]; [simpl; tauto |].
  destruct (K "inside_temp") as [v11 H11]; [simpl; tauto |].
  destruct (K "inside_humidity") as [v12 H12]; [simpl; tauto |].
  destruct (K "pm25") as [v13 H13]; [simpl; tauto |].
  destruct (K "pm25aqi") as [v14 H14]; [simpl; tauto |].
  destruct (K "pm10") as [v15 H15]; [simpl; tauto |].
  destruct (K "pm10aqi") as [v16 H16]; [simpl; tauto |].
  destruct (K "co2") as [v17 H17]; [simpl; tauto |].
  clear K Hkeys.
  unfold answered in Hin. simpl in Hin.
  repeat (destruct Hin as [<- | Hin]; [| try contradiction]);
    unfold route, json_of, intro_page, collect, same, subscript;
    cbn [String.eqb Ascii.eqb Bool.eqb one_of existsb orb field_of_path map];
    rewrite ?Hdt, ?H1, ?H2, ?H3, ?H4, ?H5, ?H6, ?H7, ?H8, ?H9, ?H10, ?H11,
            ?H12, ?H13, ?H14, ?H15, ?H16, ?H17;
    try (destruct n); simpl; eauto.
Qed.

Lemma initial_well_keyed t0 t1 t2 : well_keyed (initial t0 t1 t2).
Proof.
  split.
  - simpl. repeat constructor; discriminate.
  - exists (NInt 0). reflexivity.
Qed.

(** X18: apart from the four paths that read keys the record never has,
    every path a branch answers is answered in every state of the process,
    before the first poll as after it: the handler returns, having sent a
    complete response. *)
Theorem answered_paths_never_raise
    (history : list event) (t0 t1 t2 : Z) (now : R) (ru_maxrss : Z) :
  Forall (fun path =>
            snd (GET now ru_maxrss path (run' history (initial t0 t1 t2)))
            = Ok tt)
         answered.
Proof.
  assert (W : well_keyed (run' history (initial t0 t1 t2))).
  { apply (run_invariant well_keyed); [| apply initial_well_keyed].
    intros g ev. apply step_well_keyed. }
  apply Forall_forall. intros path Hin.
  destruct (route_answered now ru_maxrss path _ W Hin) as [r Hr].
  destruct (GET_cases conf json_dumps str_value str_fromtimestamp
              str_utcfromtimestamp now ru_maxrss path
              (run' history (initial t0 t1 t2)))
    as [(e & He & _) | (ct & msg & st & _ & Hok & _)].
  - rewrite Hr in He. discriminate He.
  - exact Hok.
Qed.

Lemma GET_conditions_raises now rss path g :
  one_of path ["/conditions"; "/weather"] = true ->
  dict_get "weather_main" (weather g) = None ->
  GET now rss path g = (g, [send_response 200], Raise KeyError).
Proof.
  intros Hp Hw. unfold do_GET.
  assert (Hr : route' now rss path g = Raise KeyError).
  { unfold one_of in Hp. cbn [existsb] in Hp.
    rewrite orb_false_r in Hp. apply orb_true_iff in Hp.
    destruct Hp as [Hp | Hp]; apply String.eqb_eq in Hp; subst path;
      unfold route, json_of, collect, subscript;
      cbn [String.eqb Ascii.eqb Bool.eqb one_of existsb orb];
      rewrite Hw; reflexivity. }
  rewrite Hr. reflexivity.
Qed.

(** X19: like the rain request, a request for [/conditions] or [/weather]
    fails in every state of the process: it reads [weather_main], a key the
    record never has, and raises [KeyError] after [send_response(200)],
    with no header, no body and no counter moved. *)
Theorem conditions_request_raises
    (history : list event) (t0 t1 t2 : Z) (now : R) (ru_maxrss : Z) :
  let g := run' history (initial t0 t1 t2) in
  GET now ru_maxrss "/conditions" g = (g, [send_response 200], Raise KeyError) /\
  GET now ru_maxrss "/weather" g = (g, [send_response 200], Raise KeyError).
Proof.
  cbv zeta.
  assert (H : dict_get "weather_main"
                (weather (run' history (initial t0 t1 t2))) = None).
  { apply run_never_set; [| reflexivity].
    intros H. unfold possible_keys in H. simpl in H.
    repeat (destruct H as [H | H]; [discriminate H |]). exact H. }
  split; apply GET_conditions_raises; (reflexivity || exact H).
Qed.

End Invariants.

Lemma loaded_is_never_reset_witness :
  LOADED (run sample_conf getval plain blank blank blank
              [ Poll (fun _ => FetchRaised) sink_up 300 300;
                Request 310 1000 "/rain";
                Poll (fun _ => Response 500 None) sink_up 400 400 ]
              after_first_cycle) = true.
Proof.
  apply (loaded_is_never_reset sample_conf getval plain blank blank blank).
  reflexivity.
Defined.

Lemma step_defaults conf jd sv sf su g ev :
  (exists z, weather g = dict_set "dt" (Some (NInt z)) clearweather) ->
  exists z, weather (step conf getval jd sv sf su g ev)
            = dict_set "dt" (Some (NInt z)) clearweather.
Proof.
  intros Hg.
  destruct (step_frame conf getval jd sv sf su g ev)
    as [(Hw & _) | (lt & payload & Hw & _)]; rewrite Hw; [exact Hg |].
  exists (Rtrunc lt). apply getval_pass_maps_nothing.
Qed.

(** X2: with [getval] as it is, no reading of the station ever reaches the
    record: in every state of the process the record served is the one
    [clearweather()] builds, with at most its time stamp changed. *)
Theorem served_record_is_always_defaults
    (conf : config) (json_dumps : pyval -> string)
    (str_value : option num -> string)
    (str_fromtimestamp str_utcfromtimestamp : R -> string)
    (history : list event) (t0 t1 t2 : Z) :
  exists z,
    weather (run conf getval json_dumps str_value str_fromtimestamp
                 str_utcfromtimestamp history (initial t0 t1 t2))
    = dict_set "dt" (Some (NInt z)) clearweather.
Proof.
  apply (run_invariant conf getval json_dumps str_value str_fromtimestamp
           str_utcfromtimestamp
           (fun g => exists z,
                weather g = dict_set "dt" (Some (NInt z)) clearweather)).
  - intros g ev. apply step_defaults.
  - exists 0%Z. reflexivity.
Qed.

(** ** The page served before the first poll *)

Lemma contains_app_r (sub a s : string) :
  contains sub s = true -> contains sub (a ++ s) = true.
Proof.
  unfold contains. intros H.
  induction a as [| c a IH]; [exact H |].
  change (String c a ++ s) with (String c (a ++ s)).
  simpl index.
  destruct (index 0 sub (a ++ s)) as [m |]; [| discriminate IH].
  match goal with
  | |- context [if ?b then Some 0%nat else _] => destruct b
  end; reflexivity.
Qed.

(** X20: as long as no cycle has loaded data, the page served on [/] says
    so, and the request is counted as an error, not under its path: the
    body contains the no-data message, the content type is [text/html], the
    error counter grows by one and the per-path counters are unchanged. *)
Theorem intro_page_without_data
    (conf : config) (json_dumps : pyval -> string)
    (str_value : option num -> string)
    (str_fromtimestamp str_utcfromtimestamp : R -> string)
    (now : R) (ru_maxrss : Z) (g : globals) (n : num) :
  LOADED g = false ->
  dict_get "dt" (weather g) = Some (Some n) ->
  let reply := do_GET conf json_dumps str_value str_fromtimestamp
                      str_utcfromtimestamp now ru_maxrss "/" g in
  let g' := fst (fst reply) in
  snd reply = Ok tt /\
  (exists message,
      snd (fst reply)
      = [ send_response 200;
          send_header "Content-type" "text/html";
          send_header "Content-Length" (str_of_nat (String.length message));
          end_headers;
          wfile_write message ] /\
      contains "<p>Error: No weather data available</p>" message = true) /\
  errors (serverstats g') = (errors (serverstats g) + 1)%Z /\
  gets (serverstats g') = (gets (serverstats g) + 1)%Z /\
  uri (serverstats g') = uri (serverstats g).
Proof.
  intros Hl Hdt. cbv zeta. unfold do_GET, route.
  cbn [String.eqb Ascii.eqb Bool.eqb].
  unfold intro_page, subscript. rewrite Hl, Hdt.
  cbn [bind ret result_Monad].
  assert (Hn : py_int (Some n) = Ok (int_of n)) by (destruct n; reflexivity).
  rewrite Hn. cbv iota beta.
  set (head := ("<html>" ++ _)%string).
  set (tail := ("<p>Last data update: " ++ _)%string).
  assert (Hmsg : contains "<p>Error: No weather data available</p>"
                   (head ++ "<p>Error: No weather data available</p>" ++ tail)
                 = true).
  { apply contains_app_r. reflexivity. }
  assert (Herr : contains "Error"
                   (head ++ "<p>Error: No weather data available</p>" ++ tail)
                 = true).
  { apply contains_app_r. reflexivity. }
  unfold count. rewrite Herr. cbn [fst snd serverstats with_serverstats].
  repeat split.
  exists (head ++ "<p>Error: No weather data available</p>" ++ tail).
  split; [reflexivity | exact Hmsg].
Qed.

Lemma intro_page_without_data_witness :
  let reply := do_GET sample_conf plain blank blank blank 50 1000 "/"
                      (initial 0 0 0) in
  snd reply = Ok tt /\
  errors (serverstats (fst (fst reply))) = 1%Z /\
  uri (serverstats (fst (fst reply))) = [].
Proof.
  intros reply.
  destruct (intro_page_without_data sample_conf plain blank blank blank
              50 1000 (initial 0 0 0) (NInt 0) eq_refl eq_refl)
    as (Hok & _ & He & _ & Hu).
  subst reply.
  split; [exact Hok |].
  split; [rewrite He | rewrite Hu]; reflexivity.
Defined.

(** ** What a cycle hands to the sink, and what it shows on the way *)

(** X21: a cycle that fetched a payload with the sink enabled runs the
    InfluxDB block once, on a point that carries the record the cycle
    publishes and the integer part of [currentts] as its time; a cycle
    whose fetch failed, or with the sink disabled, does not run it. *)
Theorem sink_is_written_once
    (conf : config) (gv : pyval -> result num)
    (network : http_get -> fetch_outcome)
    (influx : Z -> record -> sink_outcome)
    (currentts lasttime : R) (g : globals) :
  let c := poll_cycle conf gv network influx currentts lasttime g in
  filter is_write (effects c)
  = if INFLUX conf && negb (fetch_failed (network (fetch_request conf)))
    then [WritePoints (Rtrunc currentts) (weather (after c))]
    else [].
Proof.
  cbv zeta.
  destruct (fetch_failed (network (fetch_request conf))) eqn:Hf.
  - rewrite (poll_cycle_idle _ _ _ _ _ _ _ (fetch_failed_true _ Hf)).
    rewrite andb_false_r. reflexivity.
  - destruct (fetch_failed_false _ Hf) as [payload Hnet].
    rewrite (poll_cycle_loaded _ _ _ _ _ _ _ payload Hnet). cbv zeta.
    cbn [effects after weather]. destruct (INFLUX conf); reflexivity.
Qed.

(** X22: whatever a request reads while a cycle runs, it finds every key of
    [clearweather()]: in any state of the process, each content the global
    record takes during a cycle has all of them. *)
Theorem snapshots_keep_every_key
    (conf : config) (gv : pyval -> result num) (json_dumps : pyval -> string)
    (str_value : option num -> string)
    (str_fromtimestamp str_utcfromtimestamp : R -> string)
    (history : list event) (t0 t1 t2 : Z)
    (network : http_get -> fetch_outcome)
    (influx : Z -> record -> sink_outcome) (currentts lasttime : R) :
  let g := run conf gv json_dumps str_value str_fromtimestamp
               str_utcfromtimestamp history (initial t0 t1 t2) in
  Forall (fun w => Forall (fun k => dict_get k w <> None)
                          (dict_keys clearweather))
         (observable (poll_cycle conf gv network influx currentts lasttime g)).
Proof.
  cbv zeta.
  set (g := run _ _ _ _ _ _ history _).
  assert (W : well_keyed g).
  { apply (run_invariant conf gv json_dumps str_value str_fromtimestamp
             str_utcfromtimestamp well_keyed);
      [| apply initial_well_keyed].
    intros g' ev. apply step_well_keyed. }
  assert (C : forall ws, Forall (fun k => dict_get k (apply_writes ws clearweather) <> None)
                                (dict_keys clearweather)).
  { intros ws. apply Forall_forall. intros k Hk.
    apply apply_writes_keeps, dict_get_absent_not, Hk. }
  destruct (fetch_cases (network (fetch_request conf))) as [[payload Hnet] | Hnet].
  - rewrite (poll_cycle_loaded _ _ _ _ _ _ _ payload Hnet). cbv zeta.
    cbn [observable].
    destruct (writes_mapping gv lasttime payload clearweather) as (ws & _ & _ & Hs).
    rewrite Hs. constructor; [exact (proj1 W) |].
    constructor; [exact (C []) |].
    apply Forall_forall. intros w Hin.
    destruct (scan_prefix _ _ _ Hin) as [n ->]. apply C.
  - rewrite (poll_cycle_idle _ _ _ _ _ _ _ Hnet). cbn [observable].
    constructor; [exact (proj1 W) | constructor].
Qed.

(** ** C10: the status code, and what is sent *)

Lemma path_cases (path : string) :
  one_of path unanswered = false ->
  In path answered \/ one_of path routes = false.
Proof.
  intros Hp. destruct (one_of path routes) eqn:Hr; [left | right; reflexivity].
  unfold one_of in Hr. apply existsb_exists in Hr as (k & Hk & E).
  apply String.eqb_eq in E. subst k. unfold routes in Hk. simpl in Hk.
  repeat (destruct Hk as [<- | Hk]; [first [discriminate Hp | simpl; tauto] |]).
  contradiction.
Qed.



